(** * har_parse: extraction and comparison of JavaScript includes in HAR files

    A shallow embedding of [har_parse.py] (functions [getJS] and [compareJS])
    and the properties of its URL normalisation, fingerprinting and
    comparison.

    Modelling conventions.
    - A Python [str] is a [list ascii]: the characters are the code points
      0..255.  On these code points the regular-expression class [\d] is
      [0-9], [str.lower] is the Latin-1 lower-casing, and the UTF-8 encoding
      uses one or two bytes.
    - A Python [dict] used as a map is a [gmap]; the parsed HAR document is a
      record with the fields that the program reads.
    - [hashlib.md5] is the MD5 function of RFC 1321 on lists of bytes, the
      hash object being the list of the bytes fed to it so far.
    - [getJS] prints and updates the entries it walks: it is a function from
      the document to the printed lines, the updated document and the
      returned dictionary. *)

From Stdlib Require Import ZArith NArith List Lia.
From Stdlib Require Import Strings.Ascii Strings.String Strings.Byte.
From Stdlib Require Import Numbers.DecimalString.
From stdpp Require Import gmap strings list.

Local Open Scope Z_scope.

(** ** Python strings *)

Abbreviation str := (list ascii).

(** A string literal of the source. *)
Definition lit (x : string) : str := list_ascii_of_string x.

Definition chr_eqb (a b : ascii) : bool := Stdlib.Strings.Ascii.eqb a b.

Definition is_newline (c : ascii) : bool := chr_eqb c "010"%char.
Definition is_slash (c : ascii) : bool := chr_eqb c "/"%char.
Definition is_qmark (c : ascii) : bool := chr_eqb c "?"%char.

(** [\d] on the code points 0..255. *)
Definition is_digit (c : ascii) : bool :=
  let n := N_of_ascii c in ((48 <=? n) && (n <=? 57))%N.

(** [str.lower] on one code point: A-Z, and the upper-case letters of
    Latin-1 (0xC0..0xDE but the multiplication sign 0xD7). *)
Definition lower_chr (c : ascii) : ascii :=
  let n := N_of_ascii c in
  if (((65 <=? n) && (n <=? 90)) ||
      ((192 <=? n) && (n <=? 222) && negb (n =? 215)))%N
  then ascii_of_N (n + 32) else c.

Definition lower (t : str) : str := map lower_chr t.

(** [t.startswith(p)], the test behind [find] and [in]. *)
Fixpoint startswith (p t : str) : bool :=
  match p, t with
  | [], _ => true
  | _ :: _, [] => false
  | a :: p', b :: t' => chr_eqb a b && startswith p' t'
  end.

(** [t.find(sub)]: the lowest index at which [sub] occurs in [t], or -1. *)
Fixpoint find_from (i : Z) (sub t : str) : Z :=
  if startswith sub t then i
  else match t with
       | [] => -1
       | _ :: t' => find_from (i + 1) sub t'
       end.

Definition str_find (t sub : str) : Z := find_from 0 sub t.

(** [sub in t]. *)
Definition contains (sub t : str) : bool := negb (str_find t sub =? -1).

Definition str_eqb (a b : str) : bool := bool_decide (a = b).

(** ** The regular expressions of the source

    A matcher takes the text at the position where a match is attempted and
    returns the text that follows the match, if there is one. *)

(** The end of [.+$]: the longest run of characters other than the newline
    has been entered; [$] holds at the end of the text and before a newline
    that ends the text.  A shorter run never helps: it is followed by a
    character that is not a newline, where [$] fails. *)
Fixpoint match_to_end (r : str) : option str :=
  match r with
  | [] => Some []
  | c :: r' =>
      if is_newline c
      then match r' with [] => Some [c] | _ :: _ => None end
      else match_to_end r'
  end.

(** [\?.+$] *)
Definition match_qstring (t : str) : option str :=
  match t with
  | q :: c :: r =>
      if is_qmark q && negb (is_newline c) then match_to_end r else None
  | _ => None
  end.

Fixpoint strip_prefix_of (p t : str) : option str :=
  match p, t with
  | [], _ => Some t
  | _ :: _, [] => None
  | a :: p', b :: t' => if chr_eqb a b then strip_prefix_of p' t' else None
  end.

Fixpoint skip_digits (t : str) : str :=
  match t with
  | c :: t' => if is_digit c then skip_digits t' else t
  | [] => []
  end.

(** [/<word>\d+/], for the words [version] and [v].  The digits are taken
    greedily; giving one back never helps, the slash is not a digit. *)
Definition match_segment (word : str) (t : str) : option str :=
  match t with
  | c :: t1 =>
      if is_slash c then
        match strip_prefix_of word t1 with
        | Some (d :: t2) =>
            if is_digit d then
              match skip_digits t2 with
              | c' :: rest => if is_slash c' then Some rest else None
              | [] => None
              end
            else None
        | _ => None
        end
      else None
  | [] => None
  end.

(** [re.sub(pattern, repl, t)] for a pattern that matches no empty text: the
    matches are searched from left to right, each search starting where the
    last match ended. *)
Section ReSub.
Variable m : str -> option str.
Variable repl : str.

Fixpoint re_sub_fuel (fuel : nat) (t : str) : str :=
  match fuel with
  | O => t
  | S fuel' =>
      match m t with
      | Some rest => repl ++ re_sub_fuel fuel' rest
      | None =>
          match t with
          | [] => []
          | c :: t' => c :: re_sub_fuel fuel' t'
          end
      end
  end.

Definition re_sub (t : str) : str := re_sub_fuel (S (length t)) t.
End ReSub.

(** ** URL normalisation (getJS, lines 78-95) *)

Definition marker : str := lit "[qstring redacted]".

(** [re.sub('\?.+$', '[qstring redacted]', url)] *)
Definition redact (url : str) : str := re_sub match_qstring marker url.

(** The two substitutions of the internal branch. *)
Definition sub_version (url : str) : str :=
  re_sub (match_segment (lit "version")) (lit "/version9999999999/") url.

Definition sub_v (url : str) : str :=
  re_sub (match_segment (lit "v")) (lit "/v9999999999/") url.

Definition version_paths (url : str) : str := sub_v (sub_version url).

(** A Python integer used as a condition. *)
Definition truthy (n : Z) : bool := negb (n =? 0).

(** The key under which an entry is recorded. *)
Definition canonical_url (page_domain url : str) : str :=
  let url := redact url in
  if truthy (str_find url page_domain) then url
  else version_paths url.

(** [re.match('^(https://[^/]+)', title, re.IGNORECASE)], returning
    [group(1)]. *)
Fixpoint match_nocase (p t : str) : option str :=
  match p, t with
  | [], _ => Some t
  | _ :: _, [] => None
  | a :: p', b :: t' =>
      if chr_eqb (lower_chr a) (lower_chr b) then match_nocase p' t' else None
  end.

Fixpoint host_length (t : str) : nat :=
  match t with
  | c :: t' => if is_slash c then O else S (host_length t')
  | [] => O
  end.

Definition find_domain (title : str) : option str :=
  match match_nocase (lit "https://") title with
  | Some rest =>
      match host_length rest with
      | O => None
      | S n => Some (firstn (8 + S n) title)
      end
  | None => None
  end.

(** [page_domain] after lines 65-68. *)
Definition page_domain_of (title : str) : str :=
  match find_domain title with
  | Some d => d
  | None => []
  end.

(** ** hashlib.md5 (RFC 1321) *)

Abbreviation bytes := (list byte).

Module MD5.
Local Open Scope N_scope.

Definition add32 (x y : N) : N := (x + y) mod 2 ^ 32.
Definition not32 (x : N) : N := N.lxor x 0xFFFFFFFF.
Definition rotl32 (x n : N) : N :=
  N.lor (N.shiftl x n mod 2 ^ 32) (N.shiftr x (32 - n)).

(** floor(2^32 * abs(sin(i + 1))), i = 0..63 *)
Definition K : list N :=
[ 0xd76aa478; 0xe8c7b756; 0x242070db; 0xc1bdceee;
  0xf57c0faf; 0x4787c62a; 0xa8304613; 0xfd469501;
  0x698098d8; 0x8b44f7af; 0xffff5bb1; 0x895cd7be;
  0x6b901122; 0xfd987193; 0xa679438e; 0x49b40821;
  0xf61e2562; 0xc040b340; 0x265e5a51; 0xe9b6c7aa;
  0xd62f105d; 0x02441453; 0xd8a1e681; 0xe7d3fbc8;
  0x21e1cde6; 0xc33707d6; 0xf4d50d87; 0x455a14ed;
  0xa9e3e905; 0xfcefa3f8; 0x676f02d9; 0x8d2a4c8a;
  0xfffa3942; 0x8771f681; 0x6d9d6122; 0xfde5380c;
  0xa4beea44; 0x4bdecfa9; 0xf6bb4b60; 0xbebfbc70;
  0x289b7ec6; 0xeaa127fa; 0xd4ef3085; 0x04881d05;
  0xd9d4d039; 0xe6db99e5; 0x1fa27cf8; 0xc4ac5665;
  0xf4292244; 0x432aff97; 0xab9423a7; 0xfc93a039;
  0x655b59c3; 0x8f0ccc92; 0xffeff47d; 0x85845dd1;
  0x6fa87e4f; 0xfe2ce6e0; 0xa3014314; 0x4e0811a1;
  0xf7537e82; 0xbd3af235; 0x2ad7d2bb; 0xeb86d391 ].

Definition shifts : list N :=
[ 7; 12; 17; 22; 7; 12; 17; 22; 7; 12; 17; 22; 7; 12; 17; 22;
  5; 9; 14; 20; 5; 9; 14; 20; 5; 9; 14; 20; 5; 9; 14; 20;
  4; 11; 16; 23; 4; 11; 16; 23; 4; 11; 16; 23; 4; 11; 16; 23;
  6; 10; 15; 21; 6; 10; 15; 21; 6; 10; 15; 21; 6; 10; 15; 21 ].

(** Little-endian 32-bit words of a block. *)
Fixpoint words_of (bs : list N) : list N :=
  match bs with
  | b0 :: b1 :: b2 :: b3 :: r =>
      (b0 + 2 ^ 8 * b1 + 2 ^ 16 * b2 + 2 ^ 24 * b3) :: words_of r
  | _ => []
  end.

Definition bytes_of_word (w : N) : list N :=
  [ w mod 256; (w / 2 ^ 8) mod 256; (w / 2 ^ 16) mod 256;
    (w / 2 ^ 24) mod 256 ].

Definition state : Type := N * N * N * N.

Definition init : state :=
  (0x67452301, 0xefcdab89, 0x98badcfe, 0x10325476).

Definition step (M : list N) (st : state) (i : nat) : state :=
  let '(a, b, c, d) := st in
  let '(f, g) :=
    if (i <? 16)%nat then
      (N.lor (N.land b c) (N.land (not32 b) d), i)
    else if (i <? 32)%nat then
      (N.lor (N.land d b) (N.land (not32 d) c), ((5 * i + 1) mod 16)%nat)
    else if (i <? 48)%nat then
      (N.lxor (N.lxor b c) d, ((3 * i + 5) mod 16)%nat)
    else
      (N.lxor c (N.lor b (not32 d)), ((7 * i) mod 16)%nat) in
  let f' := add32 (add32 (add32 f a) (nth i K 0)) (nth g M 0) in
  (d, add32 b (rotl32 f' (nth i shifts 0)), b, c).

Definition compress (h : state) (block : list N) : state :=
  let '(a0, b0, c0, d0) := h in
  let '(a, b, c, d) := fold_left (step (words_of block)) (seq 0 64) h in
  (add32 a0 a, add32 b0 b, add32 c0 c, add32 d0 d).

(** The message, one 1 bit, zeros up to 56 modulo 64 bytes, and the length
    of the message in bits as a 64-bit little-endian number. *)
Definition pad (msg : list N) : list N :=
  let len := length msg in
  let bits := (8 * N.of_nat len) mod 2 ^ 64 in
  msg ++ [128] ++ repeat 0 ((119 - len mod 64) mod 64)%nat
      ++ bytes_of_word (bits mod 2 ^ 32) ++ bytes_of_word (bits / 2 ^ 32).

Fixpoint blocks (fuel : nat) (bs : list N) : list (list N) :=
  match fuel, bs with
  | S fuel', _ :: _ => firstn 64 bs :: blocks fuel' (skipn 64 bs)
  | _, _ => []
  end.

Definition digest_N (msg : list N) : list N :=
  let padded := pad msg in
  let '(a, b, c, d) :=
    fold_left compress (blocks (length padded) padded) init in
  bytes_of_word a ++ bytes_of_word b ++ bytes_of_word c ++ bytes_of_word d.

Definition byte_of_N (n : N) : byte :=
  match Byte.of_N n with Some b => b | None => Byte.x00 end.

(** The 16 bytes of the digest. *)
Definition digest (msg : bytes) : bytes :=
  map byte_of_N (digest_N (map Byte.to_N msg)).

Definition hex_digit (n : N) : ascii :=
  if n <? 10 then ascii_of_N (48 + n) else ascii_of_N (87 + n).

Definition hex_byte (b : byte) : str :=
  let n := Byte.to_N b in [hex_digit (n / 16); hex_digit (n mod 16)].

Definition hex (bs : bytes) : str := flat_map hex_byte bs.
End MD5.

(** The hash object [m]: the bytes it has been fed. *)
Definition md5_new : bytes := [].
Definition md5_update (m data : bytes) : bytes := m ++ data.
Definition md5_hexdigest (m : bytes) : str := MD5.hex (MD5.digest m).

(** [t.encode('utf-8')] for code points below 256. *)
Definition utf8_chr (c : ascii) : bytes :=
  let n := N_of_ascii c in
  if (n <? 128)%N then [MD5.byte_of_N n]
  else [MD5.byte_of_N (192 + n / 64)%N; MD5.byte_of_N (128 + n mod 64)%N].

Definition encode_utf8 (t : str) : bytes := flat_map utf8_chr t.

(** ** The parsed HAR document (the fields that the program reads) *)

Record Header := { h_name : str; h_value : str }.

(** [response.content]: the key [text] may be missing. *)
Record Content := { c_text : option str; c_size : Z }.

Record Request := { url : str; req_headers : list Header }.

Record Response := { resp_headers : list Header; content : Content }.

Record Entry := { request : Request; response : Response }.

Record Page := { title : str; startedDateTime : str }.

Record Log := { pages : list Page; entries : list Entry }.

Record HarDoc := { log : Log }.

(** ** getJS *)

(** The values of [JSFiles]. *)
Record JSFile := {
  js_size : Z;
  js_hash : str;
  js_text : str;
  js_referer : str
}.

Record FileDetails := { fd_title : str; fd_startedDateTime : str }.

(** The dictionary that [getJS] returns. *)
Record Parsed := { JSFiles : gmap str JSFile; fileDetails : FileDetails }.

(** The string written at line 114. *)
Definition placeholder : str := lit "ADDED TEXT TO ANOMOLY".

Definition tab : str := ["009"%char].

(** [str(n)] *)
Definition str_of_Z (n : Z) : str := lit (NilZero.string_of_int (Z.to_int n)).

(** Lines 127-131: the referer recorded with a file; the last header named
    [referer] is the one that stays. *)
Definition referer_of (request_headers : list Header) : str :=
  fold_left
    (fun referer request_header =>
       if str_eqb (lower (h_name request_header)) (lit "referer")
       then redact (h_value request_header)
       else referer)
    request_headers [].

(** Lines 102-103. *)
Definition is_js_header (header : Header) : bool :=
  str_eqb (lower (h_name header)) (lit "content-type")
  && contains (lit "javascript") (h_value header).

(** What the loop over the response headers of one entry reads and writes:
    the [text] of the entry's content, the hash object [m], [JSFiles] and the
    lines printed. *)
Record HeaderLoop := {
  hl_text : option str;
  hl_m : bytes;
  hl_files : gmap str JSFile;
  hl_out : list str
}.

(** Lines 102-131, for one response header. *)
Definition header_step (debug : bool) (url : str) (entry : Entry)
    (st : HeaderLoop) (header : Header) : HeaderLoop :=
  if is_js_header header then
    let size := c_size (content (response entry)) in
    let out1 :=
      if debug
      then [lit "Found name: " ++ h_name header ++ lit "and value: "
              ++ h_value header;
            lit "Javascript Artifact found: " ++ url]
      else [] in
    let '(text, out2) :=
      match hl_text st with
      | Some t => (t, [])
      | None => (placeholder, [lit "Anomoly ignored: no text content in " ++ url])
      end in
    let m := md5_update (hl_m st) (encode_utf8 text) in
    let out3 :=
      if debug
      then [tab ++ lit "size: " ++ str_of_Z size ++ lit " hash: "
              ++ md5_hexdigest m]
      else [] in
    {| hl_text := Some text;
       hl_m := m;
       hl_files :=
         <[url := {| js_size := size;
                     js_hash := md5_hexdigest m;
                     js_text := lit "redacted";
                     js_referer := referer_of (req_headers (request entry)) |}]>
           (hl_files st);
       hl_out := hl_out st ++ out1 ++ out2 ++ out3 |}
  else st.

(** The entry with the [text] that the loop left in its content. *)
Definition set_text (entry : Entry) (text : option str) : Entry :=
  {| request := request entry;
     response :=
       {| resp_headers := resp_headers (response entry);
          content := {| c_text := text;
                        c_size := c_size (content (response entry)) |} |} |}.

(** What the loop over the entries reads and writes: [JSFiles], the lines
    printed, and the entries already visited, as the loop left them. *)
Record EntryLoop := {
  el_files : gmap str JSFile;
  el_out : list str;
  el_entries : list Entry
}.

(** Lines 73-131, for one entry. *)
Definition entry_step (debug : bool) (page_domain : str)
    (st : EntryLoop) (entry : Entry) : EntryLoop :=
  let m := md5_new in
  let url := canonical_url page_domain (url (request entry)) in
  let hl :=
    fold_left (header_step debug url entry)
      (resp_headers (response entry))
      {| hl_text := c_text (content (response entry));
         hl_m := m;
         hl_files := el_files st;
         hl_out := el_out st |} in
  {| el_files := hl_files hl;
     el_out := hl_out hl;
     el_entries := el_entries st ++ [set_text entry (hl_text hl)] |}.

(** A call of [getJS]: the dictionary returned, the document as the call
    leaves it, and the lines printed. *)
Record Run := { returned : Parsed; document : HarDoc; printed : list str }.

(** [getJS(outerDict, debug)]; [None] is the IndexError of line 60 on a
    document without pages. *)
Definition getJS (outerDict : HarDoc) (debug : bool) : option Run :=
  match pages (log outerDict) with
  | [] => None
  | page :: _ =>
      let file_details :=
        {| fd_title := title page;
           fd_startedDateTime := startedDateTime page |} in
      let '(page_domain, out) :=
        match find_domain (fd_title file_details) with
        | Some d => (d, [lit "Page domain is " ++ d])
        | None => ([], [])
        end in
      let st :=
        fold_left (entry_step debug page_domain)
          (entries (log outerDict))
          {| el_files := ∅; el_out := out; el_entries := [] |} in
      Some {| returned := {| JSFiles := el_files st;
                             fileDetails := file_details |};
              document := {| log := {| pages := pages (log outerDict);
                                       entries := el_entries st |} |};
              printed := el_out st |}
  end.

(** ** compareJS *)

Record HashPair := { baseline : str; compare : str }.

Record Differences := {
  newJS : gmap str Z;
  hashDifferentJS : gmap str HashPair
}.

(** Lines 166-173, for one key of [compDict] and its value. *)
Definition compare_step (baseDict : gmap str JSFile)
    (key : str) (comp : JSFile) (differences : Differences) : Differences :=
  match baseDict !! key with
  | None =>
      {| newJS := <[key := 1]> (newJS differences);
         hashDifferentJS := hashDifferentJS differences |}
  | Some base =>
      if negb (str_eqb (js_hash base) (js_hash comp))
      then {| newJS := newJS differences;
              hashDifferentJS :=
                <[key := {| baseline := js_hash base;
                            compare := js_hash comp |}]>
                  (hashDifferentJS differences) |}
      else differences
  end.

Definition compareJS (baseDict compDict : gmap str JSFile) : Differences :=
  map_fold (compare_step baseDict)
    {| newJS := ∅; hashDifferentJS := ∅ |} compDict.

(** ** Notions used in the statements and proofs *)

Definition no_newline (t : str) : bool :=
  forallb (fun c => negb (is_newline c)) t.

Definition no_qmark (t : str) : bool :=
  forallb (fun c => negb (is_qmark c)) t.

Definition no_slash (t : str) : bool :=
  forallb (fun c => negb (is_slash c)) t.

Definition has_qmark (t : str) : bool := existsb is_qmark t.

(** The text before the first question mark (all of it when there is
    none). *)
Fixpoint before_qmark (t : str) : str :=
  match t with
  | c :: t' => if is_qmark c then [] else c :: before_qmark t'
  | [] => []
  end.

(** The text starts with a character that [.] matches. *)
Definition starts_line (t : str) : bool :=
  match t with
  | c :: _ => negb (is_newline c)
  | [] => false
  end.

(** [.*$] matches the text. *)
Definition ends_line (t : str) : bool :=
  match match_to_end t with Some _ => true | None => false end.

(** [\?.+$] matches somewhere in the text. *)
Fixpoint has_qstring (t : str) : bool :=
  match t with
  | [] => false
  | _ :: t' =>
      match match_qstring t with Some _ => true | None => false end
      || has_qstring t'
  end.

(** A path segment [<word>\d+]. *)
Definition word_digits (word s : str) : bool :=
  match strip_prefix_of word s with
  | Some (d :: ds) => is_digit d && forallb is_digit ds
  | _ => false
  end.

(** The text cut at its slashes, and put together again. *)
Fixpoint split_slash (t : str) : list str :=
  match t with
  | [] => [[]]
  | c :: t' =>
      if is_slash c then [] :: split_slash t'
      else match split_slash t' with
           | s :: rest => (c :: s) :: rest
           | [] => [[c]]
           end
  end.

Fixpoint join_slash (l : list str) : str :=
  match l with
  | [] => []
  | s :: rest =>
      match rest with
      | [] => s
      | _ :: _ => s ++ "/"%char :: join_slash rest
      end
  end.

(** The substitution of [/<word>\d+/] seen on the segments: [avail] tells
    whether the slash before the first segment is still there to be matched;
    a segment is replaced when it also has a slash after it, and that slash
    is then used up. *)
Fixpoint scan_segments (p : str -> bool) (r : str) (avail : bool)
    (l : list str) : list str :=
  match l with
  | [] => []
  | s :: rest =>
      if avail && p s && match rest with [] => false | _ :: _ => true end
      then r :: scan_segments p r false rest
      else s :: scan_segments p r true rest
  end.

Definition nines : str := lit "9999999999".

(** The substitution of [/<word>\d+/] by [/<word>9999999999/]; [sub_version]
    and [sub_v] are its instances for [version] and [v]. *)
Definition segment_repl (w : str) : str :=
  "/"%char :: (w ++ nines) ++ ["/"%char].

Definition sub_segment (w : str) : str -> str :=
  re_sub (match_segment w) (segment_repl w).

Abbreviation scan_version :=
  (scan_segments (word_digits (lit "version")) (lit "version9999999999")).

Abbreviation scan_v :=
  (scan_segments (word_digits (lit "v")) (lit "v9999999999")).

(** ** Sample documents *)

Definition js_header : Header :=
  {| h_name := lit "Content-Type"; h_value := lit "application/javascript" |}.

Definition sample_entry (u : str) (hs : list Header) (text : option str)
    : Entry :=
  {| request := {| url := u; req_headers := [] |};
     response := {| resp_headers := hs;
                    content := {| c_text := text; c_size := 1 |} |} |}.

Definition sample_doc (page_title : str) (es : list Entry) : HarDoc :=
  {| log := {| pages := [{| title := page_title;
                            startedDateTime := lit "2020-05-01T10:00:00Z" |}];
               entries := es |} |}.

(** A page whose title does not start with its address. *)
Definition doc_no_origin : HarDoc :=
  sample_doc (lit "Example shop")
    [sample_entry (lit "http://cdn.example.com/v12/app.js?x=1")
       [js_header] (Some (lit "a"))].

(** A response that carries its content type twice. *)
Definition doc_two_headers : HarDoc :=
  sample_doc (lit "https://example.com/")
    [sample_entry (lit "https://example.com/app.js")
       [js_header; js_header] (Some (lit "a"))].

(** A response without body text. *)
Definition doc_no_text : HarDoc :=
  sample_doc (lit "https://example.com/")
    [sample_entry (lit "https://example.com/app.js") [js_header] None].

(** A page with one script, whose body is given. *)
Definition doc_body (body : str) : HarDoc :=
  sample_doc (lit "https://example.com/")
    [sample_entry (lit "https://example.com/app.js") [js_header] (Some body)].

(** Two texts with the same MD5 digest (M. Stevens, 2024). *)
Definition collision_a : str :=
  lit "TEXTCOLLBYfGiJUETHQ4hAcKSMd5zYpgqf1YRDhkmxHkhPWptrkoyz28wnI9V0aHeAuaKnak".
Definition collision_b : str :=
  lit "TEXTCOLLBYfGiJUETHQ4hEcKSMd5zYpgqf1YRDhkmxHkhPWptrkoyz28wnI9V0aHeAuaKnak".

(** Line 76 and lines 115-122 for one body: what is stored as the hash of a
    response with one JavaScript content type. *)
Definition fingerprint (body : str) : str :=
  md5_hexdigest (md5_update md5_new (encode_utf8 body)).

(** The text of an entry after the extraction: an entry with a JavaScript
    content type and no text has got the placeholder. *)
Definition filled (entry : Entry) : Entry :=
  if existsb is_js_header (resp_headers (response entry))
  then match c_text (content (response entry)) with
       | Some _ => entry
       | None => set_text entry (Some placeholder)
       end
  else entry.

(** The number of response headers that make an entry a JavaScript file. *)
Definition js_count (entry : Entry) : nat :=
  length (List.filter is_js_header (resp_headers (response entry))).

(** The bytes hashed for an entry: its text, or the placeholder, once for
    each of these headers. *)
Definition hashed_bytes (entry : Entry) : bytes :=
  concat (repeat
            (encode_utf8 (default placeholder
                            (c_text (content (response entry)))))
            (js_count entry)).

(** What one entry leaves in [JSFiles]. *)
Definition recorded (page_domain : str) (entry : Entry)
    (files : gmap str JSFile) : gmap str JSFile :=
  match js_count entry with
  | O => files
  | S _ =>
      <[canonical_url page_domain (url (request entry)) :=
          {| js_size := c_size (content (response entry));
             js_hash := md5_hexdigest (hashed_bytes entry);
             js_text := lit "redacted";
             js_referer := referer_of (req_headers (request entry)) |}]>
        files
  end.

(** The line that one entry prints when [debug] is off. *)
Definition anomaly_lines (page_domain : str) (entry : Entry) : list str :=
  if existsb is_js_header (resp_headers (response entry))
  then match c_text (content (response entry)) with
       | Some _ => []
       | None =>
           [lit "Anomoly ignored: no text content in "
              ++ canonical_url page_domain (url (request entry))]
       end
  else [].

(** Reading two hexadecimal digits. *)
Definition hex_value (c : ascii) : N :=
  let n := N_of_ascii c in (if n <? 58 then n - 48 else n - 87)%N.

Definition unhex_byte (t : str) : option byte :=
  match t with
  | [c1; c2] => Some (MD5.byte_of_N (16 * hex_value c1 + hex_value c2)%N)
  | _ => None
  end.

(** Two sample dictionaries: [A] is removed, [B] is new, [X] is changed and
    [S] is the same. *)
Definition sample_file (h : str) : JSFile :=
  {| js_size := 1; js_hash := h; js_text := lit "redacted"; js_referer := [] |}.

Definition sample_base : gmap str JSFile :=
  <[lit "A" := sample_file (lit "h1")]>
    (<[lit "X" := sample_file (lit "h1")]>
       (<[lit "S" := sample_file (lit "h3")]> ∅)).

Definition sample_comp : gmap str JSFile :=
  <[lit "B" := sample_file (lit "h1")]>
    (<[lit "X" := sample_file (lit "h2")]>
       (<[lit "S" := sample_file (lit "h3")]> ∅)).

(** The segment after the last slash of a text. *)
Definition last_segment (t : str) : str := List.last (split_slash t) [].

Definition is_hex_digit (c : ascii) : bool :=
  let n := N_of_ascii c in
  (((48 <=? n) && (n <=? 57)) || ((97 <=? n) && (n <=? 102)))%N.

(** The record that [getJS] writes for an entry. *)
Definition record_of (entry : Entry) : JSFile :=
  {| js_size := c_size (content (response entry));
     js_hash := md5_hexdigest (hashed_bytes entry);
     js_text := lit "redacted";
     js_referer := referer_of (req_headers (request entry)) |}.

Definition is_referer (h : Header) : bool :=
  str_eqb (lower (h_name h)) (lit "referer").

(** A removed file, and nothing else: the baseline of [sample_comp] with one
    more file. *)
Definition doc_one (u : str) : HarDoc :=
  sample_doc (lit "https://example.com/")
    [sample_entry u [js_header] (Some (lit "a"))].

Definition doc_two (u1 u2 : str) : HarDoc :=
  sample_doc (lit "https://example.com/")
    [sample_entry u1 [js_header] (Some (lit "a"));
     sample_entry u2 [js_header] (Some (lit "b"))].

(** The entries that [getJS] records: those with a JavaScript content
    type. *)
Definition js_entries (es : list Entry) : list Entry :=
  List.filter (fun e => existsb is_js_header (resp_headers (response e))) es.

(** * Properties *)

(** ** Characters and prefixes *)

Lemma chr_eqb_eq (a b : ascii) : chr_eqb a b = true <-> a = b.
Proof. unfold chr_eqb. apply Stdlib.Strings.Ascii.eqb_eq. Qed.

Lemma chr_eqb_refl (a : ascii) : chr_eqb a a = true.
Proof. apply chr_eqb_eq. reflexivity. Qed.

Lemma chr_eqb_neq (a b : ascii) : chr_eqb a b = false <-> a <> b.
Proof. unfold chr_eqb. apply Stdlib.Strings.Ascii.eqb_neq. Qed.

Lemma startswith_spec (p t : str) :
  startswith p t = true <-> exists k, t = p ++ k.
Proof.
  revert t. induction p as [|a p IH]; intros t; simpl.
  - split; [intros _; exists t; reflexivity | reflexivity].
  - destruct t as [|b t].
    + split; [discriminate | intros [k Hk]; discriminate].
    + rewrite andb_true_iff, chr_eqb_eq, IH. split.
      * intros [-> [k ->]]. exists k. reflexivity.
      * intros [k Hk]. injection Hk as -> ->. split; [reflexivity | eauto].
Qed.

Lemma startswith_app (p k : str) : startswith p (p ++ k) = true.
Proof. apply startswith_spec. eauto. Qed.

Lemma find_from_range (i : Z) (sub t : str) :
  find_from i sub t = -1 \/ i <= find_from i sub t.
Proof.
  revert i. induction t as [|c t IH]; intros i; simpl.
  - destruct (startswith sub []); [right; lia | left; reflexivity].
  - destruct (startswith sub (c :: t)); [right; lia |].
    destruct (IH (i + 1)) as [H | H]; [left; exact H | right; lia].
Qed.

(** [t.find(sub)] is 0 exactly when [t] starts with [sub]. *)
Lemma str_find_zero (t sub : str) :
  str_find t sub = 0 <-> startswith sub t = true.
Proof.
  unfold str_find. destruct t as [|c t]; simpl.
  - destruct (startswith sub []); split; try reflexivity; discriminate.
  - destruct (startswith sub (c :: t)) eqn:E.
    + split; reflexivity.
    + split; [|discriminate]. intros H.
      destruct (find_from_range (0 + 1) sub t) as [H' | H']; lia.
Qed.

Lemma str_find_empty (t : str) : str_find t [] = 0.
Proof. apply str_find_zero. reflexivity. Qed.

Lemma truthy_find (t sub : str) :
  truthy (str_find t sub) = negb (startswith sub t).
Proof.
  unfold truthy. destruct (startswith sub t) eqn:E.
  - apply str_find_zero in E. rewrite E. reflexivity.
  - destruct (Z.eqb_spec (str_find t sub) 0) as [H | H]; [|reflexivity].
    apply str_find_zero in H. congruence.
Qed.

(** ** The substitution loop *)

Section ReSubFacts.
Variable m : str -> option str.
Variable repl : str.
Hypothesis m_shrinks :
  forall t r, m t = Some r -> (length r < length t)%nat.

Lemma re_sub_fuel_enough (f1 f2 : nat) (t : str) :
  (length t < f1)%nat -> (length t < f2)%nat ->
  re_sub_fuel m repl f1 t = re_sub_fuel m repl f2 t.
Proof.
  revert f2 t. induction f1 as [|f1 IH]; intros f2 t H1 H2; [lia|].
  destruct f2 as [|f2]; [lia|]. simpl.
  destruct (m t) as [r|] eqn:E.
  - apply m_shrinks in E. f_equal. apply IH; lia.
  - destruct t as [|c t]; [reflexivity|]. simpl in *.
    f_equal. apply IH; lia.
Qed.

Lemma re_sub_match (t r : str) :
  m t = Some r -> re_sub m repl t = repl ++ re_sub m repl r.
Proof.
  intros E. unfold re_sub at 1. simpl. rewrite E. f_equal.
  apply m_shrinks in E. apply re_sub_fuel_enough; lia.
Qed.

Lemma re_sub_skip (c : ascii) (t : str) :
  m (c :: t) = None -> re_sub m repl (c :: t) = c :: re_sub m repl t.
Proof.
  intros E. unfold re_sub at 1.
  change (re_sub_fuel m repl (S (length (c :: t))) (c :: t))
    with (match m (c :: t) with
          | Some rest => repl ++ re_sub_fuel m repl (length (c :: t)) rest
          | None => c :: re_sub_fuel m repl (length (c :: t)) t
          end).
  rewrite E. reflexivity.
Qed.

Lemma m_nil : m [] = None.
Proof.
  destruct (m []) as [r|] eqn:E; [|reflexivity].
  apply m_shrinks in E. simpl in E. lia.
Qed.

Lemma re_sub_nil : re_sub m repl [] = [].
Proof. unfold re_sub. simpl. rewrite m_nil. reflexivity. Qed.

(** Induction along the search. *)
Lemma re_sub_ind (P : str -> str -> Prop) :
  P [] [] ->
  (forall t r, m t = Some r -> P r (re_sub m repl r) ->
               P t (repl ++ re_sub m repl r)) ->
  (forall c t, m (c :: t) = None -> P t (re_sub m repl t) ->
               P (c :: t) (c :: re_sub m repl t)) ->
  forall t, P t (re_sub m repl t).
Proof.
  intros Hnil Hmatch Hskip t.
  remember (length t) as n eqn:Hn. revert t Hn.
  induction n as [n IH] using lt_wf_ind. intros t ->.
  destruct (m t) as [r|] eqn:E.
  - rewrite (re_sub_match _ _ E). apply Hmatch; [exact E|].
    apply (IH (length r)); [apply m_shrinks; exact E | reflexivity].
  - destruct t as [|c t].
    + rewrite re_sub_nil. exact Hnil.
    + rewrite (re_sub_skip _ _ E). apply Hskip; [exact E|].
      apply (IH (length t)); [simpl; lia | reflexivity].
Qed.
End ReSubFacts.

(** ** The test suite of RFC 1321, and runs of the normaliser *)

Example md5_empty :
  md5_hexdigest (encode_utf8 []) = lit "d41d8cd98f00b204e9800998ecf8427e".
Proof. vm_compute. reflexivity. Qed.

Example md5_a :
  md5_hexdigest (encode_utf8 (lit "a"))
  = lit "0cc175b9c0f1b6a831c399e269772661".
Proof. vm_compute. reflexivity. Qed.

Example md5_abc :
  md5_hexdigest (encode_utf8 (lit "abc"))
  = lit "900150983cd24fb0d6963f7d28e17f72".
Proof. vm_compute. reflexivity. Qed.

Example md5_message_digest :
  md5_hexdigest (encode_utf8 (lit "message digest"))
  = lit "f96b697d7cb7938d525a2f31aaf161d0".
Proof. vm_compute. reflexivity. Qed.

Example md5_alphabet :
  md5_hexdigest (encode_utf8 (lit "abcdefghijklmnopqrstuvwxyz"))
  = lit "c3fcd3d76192e4007dfb496cca67e13b".
Proof. vm_compute. reflexivity. Qed.

Example md5_digits :
  md5_hexdigest
    (encode_utf8
       (lit "12345678901234567890123456789012345678901234567890123456789012345678901234567890"))
  = lit "57edf4a22be3c955ac49da2e2107b67a".
Proof. vm_compute. reflexivity. Qed.

Example canonical_url_internal :
  canonical_url (lit "https://cdn.example.com")
    (lit "https://cdn.example.com/version12/app.js?x=1")
  = lit "https://cdn.example.com/version9999999999/app.js[qstring redacted]".
Proof. vm_compute. reflexivity. Qed.

Example canonical_url_external :
  canonical_url (lit "https://www.example.com")
    (lit "https://cdn.example.com/version12/app.js?x=1")
  = lit "https://cdn.example.com/version12/app.js[qstring redacted]".
Proof. vm_compute. reflexivity. Qed.

Example version_paths_adjacent :
  version_paths (lit "/v1/v2/v3/version4/version5/x")
  = lit "/v9999999999/v2/v9999999999/version9999999999/version5/x".
Proof. vm_compute. reflexivity. Qed.

Example find_domain_upper :
  find_domain (lit "HTTPS://Example.com/shop") = Some (lit "HTTPS://Example.com").
Proof. vm_compute. reflexivity. Qed.

(** ** Lines and question marks *)

Lemma is_newline_eq (c : ascii) : is_newline c = true -> c = "010"%char.
Proof. apply chr_eqb_eq. Qed.

Lemma digit_not_newline (c : ascii) : is_digit c = true -> is_newline c = false.
Proof.
  intros H. destruct (is_newline c) eqn:E; [|reflexivity].
  apply is_newline_eq in E. subst c. discriminate H.
Qed.

Lemma digit_not_qmark (c : ascii) : is_digit c = true -> is_qmark c = false.
Proof.
  intros H. destruct (is_qmark c) eqn:E; [|reflexivity].
  apply chr_eqb_eq in E. subst c. discriminate H.
Qed.

Lemma digit_not_slash (c : ascii) : is_digit c = true -> is_slash c = false.
Proof.
  intros H. destruct (is_slash c) eqn:E; [|reflexivity].
  apply chr_eqb_eq in E. subst c. discriminate H.
Qed.

Lemma digits_no_newline (ds : str) :
  forallb is_digit ds = true -> no_newline ds = true.
Proof.
  unfold no_newline. rewrite !forallb_forall. intros H c Hc.
  rewrite (digit_not_newline c (H c Hc)). reflexivity.
Qed.

Lemma digits_no_qmark (ds : str) :
  forallb is_digit ds = true -> no_qmark ds = true.
Proof.
  unfold no_qmark. rewrite !forallb_forall. intros H c Hc.
  rewrite (digit_not_qmark c (H c Hc)). reflexivity.
Qed.

Lemma digits_no_slash (ds : str) :
  forallb is_digit ds = true -> no_slash ds = true.
Proof.
  unfold no_slash. rewrite !forallb_forall. intros H c Hc.
  rewrite (digit_not_slash c (H c Hc)). reflexivity.
Qed.

Lemma no_newline_app (a b : str) :
  no_newline (a ++ b) = no_newline a && no_newline b.
Proof. apply forallb_app. Qed.

Lemma no_qmark_app (a b : str) :
  no_qmark (a ++ b) = no_qmark a && no_qmark b.
Proof. apply forallb_app. Qed.

Lemma no_slash_app (a b : str) :
  no_slash (a ++ b) = no_slash a && no_slash b.
Proof. apply forallb_app. Qed.

Lemma match_to_end_inv (x r : str) :
  match_to_end x = Some r ->
  exists s, x = s ++ r /\ no_newline s = true /\ (r = [] \/ r = ["010"%char]).
Proof.
  induction x as [|c x IH]; simpl.
  - intros [= <-]. exists []. auto.
  - destruct (is_newline c) eqn:E.
    + destruct x; [|discriminate]. intros [= <-].
      apply is_newline_eq in E. subst c. exists []. auto.
    + intros H. destruct (IH H) as (s & -> & Hs & Hr).
      exists (c :: s). simpl. rewrite E. auto.
Qed.


Lemma ends_line_cons (c : ascii) (x : str) :
  ends_line (c :: x) =
  if is_newline c then match x with [] => true | _ :: _ => false end
  else ends_line x.
Proof.
  unfold ends_line. simpl. destruct (is_newline c); [|reflexivity].
  destruct x; reflexivity.
Qed.

Lemma ends_line_app (p r : str) :
  no_newline p = true -> ends_line (p ++ r) = ends_line r.
Proof.
  induction p as [|c p IH]; simpl; [reflexivity|].
  rewrite andb_true_iff, negb_true_iff. intros [Hc Hp].
  rewrite ends_line_cons, Hc. apply IH, Hp.
Qed.

Lemma starts_line_app (p r : str) :
  p <> [] -> no_newline p = true -> starts_line (p ++ r) = true.
Proof.
  destruct p as [|c p]; [congruence|]. simpl.
  rewrite andb_true_iff. intros _ [H _]. exact H.
Qed.

(** Where [\?.+$] matches. *)
Lemma match_qstring_some (q : ascii) (y : str) :
  match match_qstring (q :: y) with Some _ => true | None => false end
  = is_qmark q && starts_line y && ends_line y.
Proof.
  destruct y as [|c r]; simpl.
  - rewrite andb_false_r. reflexivity.
  - rewrite ends_line_cons.
    destruct (is_qmark q); simpl; [|reflexivity].
    destruct (is_newline c); simpl; reflexivity.
Qed.

Lemma match_qstring_inv (t r : str) :
  match_qstring t = Some r ->
  exists mt, t = mt ++ r /\ mt <> [] /\ no_newline mt = true
             /\ (r = [] \/ r = ["010"%char]).
Proof.
  destruct t as [|q [|c x]]; simpl; try discriminate.
  destruct (is_qmark q) eqn:Eq; simpl; [|discriminate].
  destruct (is_newline c) eqn:Ec; simpl; [discriminate|].
  intros H. destruct (match_to_end_inv _ _ H) as (s & -> & Hs & Hr).
  exists (q :: c :: s). repeat split; [discriminate | | exact Hr].
  simpl. rewrite Ec, Hs. apply chr_eqb_eq in Eq. subst q. reflexivity.
Qed.

Lemma has_qstring_app (p r : str) :
  no_qmark p = true -> has_qstring (p ++ r) = has_qstring r.
Proof.
  induction p as [|c p IH]; simpl; [reflexivity|].
  rewrite andb_true_iff, negb_true_iff. intros [Hc Hp].
  rewrite IH by exact Hp.
  destruct (p ++ r) as [|c' x]; simpl; [reflexivity|].
  rewrite Hc. reflexivity.
Qed.

Lemma has_qstring_cons (c : ascii) (t : str) :
  has_qstring (c :: t) =
  is_qmark c && starts_line t && ends_line t || has_qstring t.
Proof.
  change (has_qstring (c :: t))
    with (match match_qstring (c :: t) with Some _ => true | None => false end
          || has_qstring t).
  rewrite match_qstring_some. reflexivity.
Qed.

(** A substitution that replaces text without newline by text without
    newline leaves the shape of the lines as it is. *)
Section KeepsLines.
Variable m : str -> option str.
Variable repl : str.
Hypothesis m_line :
  forall t r, m t = Some r ->
    exists mt, t = mt ++ r /\ mt <> [] /\ no_newline mt = true.
Hypothesis repl_line : repl <> [] /\ no_newline repl = true.

Lemma m_line_shrinks (t r : str) :
  m t = Some r -> (length r < length t)%nat.
Proof.
  intros H. destruct (m_line _ _ H) as (mt & -> & Hmt & _).
  rewrite length_app. destruct mt; [congruence | simpl; lia].
Qed.

Lemma re_sub_lines (t : str) :
  ends_line (re_sub m repl t) = ends_line t
  /\ starts_line (re_sub m repl t) = starts_line t
  /\ (re_sub m repl t = [] <-> t = []).
Proof.
  apply (re_sub_ind m repl m_line_shrinks
           (fun t t' => ends_line t' = ends_line t
                        /\ starts_line t' = starts_line t
                        /\ (t' = [] <-> t = []))).
  - repeat split; reflexivity.
  - intros t0 r E (IH1 & _ & _).
    destruct (m_line _ _ E) as (mt & -> & Hmt & Hnl).
    destruct repl_line as [Hr1 Hr2].
    rewrite !ends_line_app by assumption.
    rewrite !starts_line_app by assumption.
    repeat split; [exact IH1 | |].
    + intros H. apply app_eq_nil in H. tauto.
    + intros H. apply app_eq_nil in H. tauto.
  - intros c t0 _ (IH1 & _ & IH3).
    rewrite !ends_line_cons, IH1. simpl.
    repeat split; try discriminate.
    destruct (is_newline c); [|reflexivity].
    destruct (re_sub m repl t0), t0; try reflexivity.
    + destruct IH3 as [H _]. specialize (H eq_refl). discriminate.
    + destruct IH3 as [_ H]. specialize (H eq_refl). discriminate.
Qed.

(** When neither the texts replaced nor the replacement hold a question
    mark, [\?.+$] matches after the substitution where it did before. *)
Hypothesis m_noq :
  forall t r, m t = Some r ->
    exists mt, t = mt ++ r /\ no_qmark mt = true.
Hypothesis repl_noq : no_qmark repl = true.

Lemma re_sub_has_qstring (t : str) :
  has_qstring (re_sub m repl t) = has_qstring t.
Proof.
  apply (re_sub_ind m repl m_line_shrinks
           (fun t t' => has_qstring t' = has_qstring t)).
  - reflexivity.
  - intros t0 r E IH. destruct (m_noq _ _ E) as (mt & -> & Hq).
    rewrite !has_qstring_app by assumption. exact IH.
  - intros c t0 _ IH. rewrite !has_qstring_cons, IH.
    destruct (re_sub_lines t0) as (-> & -> & _). reflexivity.
Qed.
End KeepsLines.

(** ** The redaction of the query string *)

Lemma match_qstring_line (t r : str) :
  match_qstring t = Some r ->
  exists mt, t = mt ++ r /\ mt <> [] /\ no_newline mt = true.
Proof.
  intros H. destruct (match_qstring_inv _ _ H) as (mt & ? & ? & ? & _).
  eauto.
Qed.

Lemma match_qstring_shrinks (t r : str) :
  match_qstring t = Some r -> (length r < length t)%nat.
Proof. apply m_line_shrinks, match_qstring_line. Qed.

Lemma marker_line : marker <> [] /\ no_newline marker = true.
Proof. split; [discriminate | reflexivity]. Qed.


Lemma redact_skip (c : ascii) (t : str) :
  match_qstring (c :: t) = None -> redact (c :: t) = c :: redact t.
Proof. apply re_sub_skip. Qed.

Lemma redact_nil : redact [] = [].
Proof. reflexivity. Qed.

(** A text in which [\?.+$] matches nowhere is left as it is. *)
Lemma redact_fixed (t : str) : has_qstring t = false -> redact t = t.
Proof.
  induction t as [|c t IH]; [reflexivity|].
  change (has_qstring (c :: t))
    with (match match_qstring (c :: t) with Some _ => true | None => false end
          || has_qstring t).
  rewrite orb_false_iff. intros [H1 H2].
  rewrite redact_skip, IH; [reflexivity | exact H2 |].
  destruct (match_qstring (c :: t)); [discriminate | reflexivity].
Qed.

(** After the redaction [\?.+$] matches nowhere. *)
Lemma redact_no_qstring (t : str) : has_qstring (redact t) = false.
Proof.
  apply (re_sub_ind match_qstring marker match_qstring_shrinks
           (fun _ t' => has_qstring t' = false)).
  - reflexivity.
  - intros t0 r _ IH. rewrite has_qstring_app by reflexivity. exact IH.
  - intros c t0 E IH. rewrite has_qstring_cons, IH, orb_false_r.
    destruct (re_sub_lines match_qstring marker match_qstring_line
                marker_line t0) as (-> & -> & _).
    rewrite <- match_qstring_some, E. reflexivity.
Qed.

Lemma redact_idempotent (t : str) : redact (redact t) = redact t.
Proof. apply redact_fixed, redact_no_qstring. Qed.

(** ** The version segments *)

Lemma strip_prefix_of_inv (p t r : str) :
  strip_prefix_of p t = Some r -> t = p ++ r.
Proof.
  revert t. induction p as [|a p IH]; intros t; simpl.
  - intros [= ->]. reflexivity.
  - destruct t as [|b t]; [discriminate|].
    destruct (chr_eqb a b) eqn:E; [|discriminate].
    apply chr_eqb_eq in E. subst b. intros H. rewrite (IH _ H). reflexivity.
Qed.

Lemma strip_prefix_of_app (p r : str) : strip_prefix_of p (p ++ r) = Some r.
Proof.
  induction p as [|a p IH]; simpl; [reflexivity|].
  rewrite chr_eqb_refl. exact IH.
Qed.

Lemma skip_digits_inv (t : str) :
  exists ds, t = ds ++ skip_digits t /\ forallb is_digit ds = true.
Proof.
  induction t as [|c t (ds & IH1 & IH2)]; simpl.
  - exists []. auto.
  - destruct (is_digit c) eqn:E.
    + exists (c :: ds). simpl. rewrite E, IH2. split; [congruence | reflexivity].
    + exists []. auto.
Qed.


Lemma match_segment_inv (w t r : str) :
  match_segment w t = Some r ->
  exists ds, t = "/"%char :: w ++ ds ++ "/"%char :: r
             /\ ds <> [] /\ forallb is_digit ds = true.
Proof.
  destruct t as [|c t1]; simpl; [discriminate|].
  destruct (is_slash c) eqn:Ec; [|discriminate].
  apply chr_eqb_eq in Ec. subst c.
  destruct (strip_prefix_of w t1) as [[|d t2]|] eqn:Ew; try discriminate.
  apply strip_prefix_of_inv in Ew. subst t1.
  destruct (is_digit d) eqn:Ed; [|discriminate].
  destruct (skip_digits_inv t2) as (ds & Hds & Hdig).
  destruct (skip_digits t2) as [|c' rest]; [discriminate|].
  destruct (is_slash c') eqn:Ec'; [|discriminate].
  apply chr_eqb_eq in Ec'. subst c'. intros [= <-].
  exists (d :: ds). rewrite Hds. simpl. rewrite Ed, Hdig.
  repeat split. discriminate.
Qed.

Section SegmentKeeps.
Variable w : str.
Variable repl : str.
Hypothesis w_line : no_newline w = true.
Hypothesis w_noq : no_qmark w = true.
Hypothesis repl_line : repl <> [] /\ no_newline repl = true.
Hypothesis repl_noq : no_qmark repl = true.

Lemma match_segment_line (t r : str) :
  match_segment w t = Some r ->
  exists mt, t = mt ++ r /\ mt <> [] /\ no_newline mt = true.
Proof.
  intros H. destruct (match_segment_inv _ _ _ H) as (ds & -> & _ & Hd).
  exists ("/"%char :: w ++ ds ++ ["/"%char]).
  split; [|split; [discriminate|]].
  - simpl. rewrite <- !app_assoc. reflexivity.
  - change (no_newline ("/"%char :: w ++ ds ++ ["/"%char]))
      with (no_newline (w ++ ds ++ ["/"%char])).
    rewrite !no_newline_app, w_line, (digits_no_newline _ Hd). reflexivity.
Qed.

Lemma match_segment_noq (t r : str) :
  match_segment w t = Some r ->
  exists mt, t = mt ++ r /\ no_qmark mt = true.
Proof.
  intros H. destruct (match_segment_inv _ _ _ H) as (ds & -> & _ & Hd).
  exists ("/"%char :: w ++ ds ++ ["/"%char]). split.
  - simpl. rewrite <- !app_assoc. reflexivity.
  - change (no_qmark ("/"%char :: w ++ ds ++ ["/"%char]))
      with (no_qmark (w ++ ds ++ ["/"%char])).
    rewrite !no_qmark_app, w_noq, (digits_no_qmark _ Hd). reflexivity.
Qed.

Lemma sub_segment_has_qstring (t : str) :
  has_qstring (re_sub (match_segment w) repl t) = has_qstring t.
Proof.
  apply re_sub_has_qstring;
    auto using match_segment_line, match_segment_noq.
Qed.
End SegmentKeeps.

Lemma version_paths_has_qstring (t : str) :
  has_qstring (version_paths t) = has_qstring t.
Proof.
  unfold version_paths, sub_v, sub_version.
  rewrite !sub_segment_has_qstring; try reflexivity;
    split; (discriminate || reflexivity).
Qed.

(** The internal branch does not undo the redaction. *)
Lemma redact_version_paths (t : str) :
  redact (version_paths (redact t)) = version_paths (redact t).
Proof.
  apply redact_fixed. rewrite version_paths_has_qstring.
  apply redact_no_qstring.
Qed.

(** ** The substitutions on the segments of a path *)

Lemma join_slash_cons (s : str) (l : list str) :
  l <> [] -> join_slash (s :: l) = s ++ "/"%char :: join_slash l.
Proof. destruct l; [congruence | reflexivity]. Qed.

Lemma split_slash_nonempty (t : str) : split_slash t <> [].
Proof.
  induction t as [|c t IH]; simpl; [discriminate|].
  destruct (is_slash c); [discriminate|].
  destruct (split_slash t); discriminate.
Qed.

Lemma join_split_slash (t : str) : join_slash (split_slash t) = t.
Proof.
  induction t as [|c t IH]; [reflexivity|].
  simpl split_slash. destruct (is_slash c) eqn:E.
  - apply chr_eqb_eq in E. subst c.
    rewrite join_slash_cons by apply split_slash_nonempty.
    rewrite IH. reflexivity.
  - pose proof (split_slash_nonempty t) as Hne.
    destruct (split_slash t) as [|s rest]; [congruence|].
    rewrite <- IH. destruct rest; reflexivity.
Qed.

Lemma split_slash_no_slash (t : str) :
  Forall (fun s => no_slash s = true) (split_slash t).
Proof.
  induction t as [|c t IH]; simpl.
  - constructor; [reflexivity | constructor].
  - destruct (is_slash c) eqn:E.
    + constructor; [reflexivity | exact IH].
    + destruct (split_slash t) as [|s rest]; inversion IH; subst.
      * constructor; [|constructor]. simpl. rewrite E. reflexivity.
      * constructor; [|assumption]. simpl. rewrite E. simpl. assumption.
Qed.

Section ScanSegments.
Variable p : str -> bool.
Variable r : str.

Lemma scan_segments_nonempty (b : bool) (l : list str) :
  l <> [] -> scan_segments p r b l <> [].
Proof.
  destruct l as [|s rest]; [congruence|]. intros _. simpl.
  destruct (b && p s && _); discriminate.
Qed.

Lemma scan_segments_no_slash (b : bool) (l : list str) :
  no_slash r = true ->
  Forall (fun s => no_slash s = true) l ->
  Forall (fun s => no_slash s = true) (scan_segments p r b l).
Proof.
  intros Hr H. revert b. induction H as [|s rest Hs _ IH]; intros b; simpl.
  - constructor.
  - destruct (b && p s && _); constructor; auto.
Qed.

(** A second pass replaces the same segments, by themselves. *)
Lemma scan_segments_idempotent (b : bool) (l : list str) :
  p r = true ->
  scan_segments p r b (scan_segments p r b l) = scan_segments p r b l.
Proof.
  intros Hr. revert b. induction l as [|s rest IH]; intros b; [reflexivity|].
  simpl. destruct (b && p s && _) eqn:E; simpl.
  - apply andb_true_iff in E as [E1 E3]. apply andb_true_iff in E1 as [-> _].
    rewrite Hr. simpl.
    destruct rest as [|x rest']; [discriminate|].
    pose proof (scan_segments_nonempty false (x :: rest')) as Hne.
    destruct (scan_segments p r false (x :: rest')) eqn:E';
      [exfalso; apply Hne; [discriminate | reflexivity]|].
    rewrite <- E', IH. reflexivity.
  - destruct rest as [|x rest'].
    + simpl. rewrite andb_false_r. reflexivity.
    + pose proof (scan_segments_nonempty true (x :: rest')) as Hne.
      destruct (scan_segments p r true (x :: rest')) eqn:E';
        [exfalso; apply Hne; [discriminate | reflexivity]|].
      rewrite andb_true_r in E |- *. rewrite E.
      rewrite <- E', IH. reflexivity.
Qed.
End ScanSegments.

(** Two substitutions for patterns that exclude each other can be done in
    either order. *)
Lemma scan_segments_comm (p1 p2 : str -> bool) (r1 r2 : str)
    (b1 b2 : bool) (l : list str) :
  (forall s, p1 s = true -> p2 s = false) ->
  p1 r2 = false -> p2 r1 = false ->
  scan_segments p1 r1 b1 (scan_segments p2 r2 b2 l)
  = scan_segments p2 r2 b2 (scan_segments p1 r1 b1 l).
Proof.
  intros Hex H12 H21. revert b1 b2.
  induction l as [|s rest IH]; intros b1 b2; [reflexivity|].
  assert (Hne : forall q x b,
             match scan_segments q x b rest with [] => false | _ :: _ => true end
             = match rest with [] => false | _ :: _ => true end).
  { intros q x b. destruct rest as [|y rest']; [reflexivity|].
    simpl. destruct (b && q y && _); reflexivity. }
  simpl.
  destruct (b2 && p2 s && _) eqn:E2; destruct (b1 && p1 s && _) eqn:E1; simpl;
    rewrite ?Hne, ?H12, ?H21, ?E1, ?E2, ?andb_false_r; simpl;
    rewrite ?IH; try reflexivity.
  exfalso.
  apply andb_true_iff in E1 as [E1 _]. apply andb_true_iff in E1 as [_ E1].
  apply andb_true_iff in E2 as [E2 _]. apply andb_true_iff in E2 as [_ E2].
  rewrite (Hex _ E1) in E2. discriminate.
Qed.

Lemma skip_digits_slash (ds r : str) :
  no_slash ds = true ->
  match skip_digits (ds ++ "/"%char :: r) with
  | c' :: rest => if is_slash c' then Some rest else None
  | [] => None
  end = if forallb is_digit ds then Some r else None.
Proof.
  induction ds as [|c ds IH]; [reflexivity|]. simpl.
  rewrite andb_true_iff, negb_true_iff. intros [Hc Hds].
  destruct (is_digit c); simpl; [exact (IH Hds) | rewrite Hc; reflexivity].
Qed.

Lemma skip_digits_no_slash (t : str) :
  no_slash t = true ->
  match skip_digits t with
  | c' :: rest => if is_slash c' then Some rest else None
  | [] => None
  end = @None str.
Proof.
  induction t as [|c t IH]; [reflexivity|]. simpl.
  rewrite andb_true_iff, negb_true_iff. intros [Hc Ht].
  destruct (is_digit c); [exact (IH Ht) | rewrite Hc; reflexivity].
Qed.

Section SegmentView.
Variable w : str.
Hypothesis w_no_slash : no_slash w = true.


Lemma match_segment_shrinks (t r : str) :
  match_segment w t = Some r -> (length r < length t)%nat.
Proof.
  intros H. destruct (match_segment_inv _ _ _ H) as (ds & -> & _ & _).
  simpl. rewrite !length_app. simpl. lia.
Qed.

Lemma match_segment_other (c : ascii) (t : str) :
  is_slash c = false -> match_segment w (c :: t) = None.
Proof. intros H. simpl. rewrite H. reflexivity. Qed.

Lemma strip_prefix_of_slash (s r : str) :
  strip_prefix_of w (s ++ "/"%char :: r)
  = match strip_prefix_of w s with
    | Some s2 => Some (s2 ++ "/"%char :: r)
    | None => None
    end.
Proof.
  revert s. induction w as [|a w' IH]; intros s; [reflexivity|].
  simpl in w_no_slash. apply andb_true_iff in w_no_slash as [Ha Hw'].
  apply negb_true_iff in Ha.
  destruct s as [|b s]; simpl.
  - unfold is_slash in Ha. rewrite Ha. reflexivity.
  - destruct (chr_eqb a b); [apply IH, Hw' | reflexivity].
Qed.

(** A segment between two slashes is matched when it is the word and
    digits. *)
Lemma match_segment_between (s r : str) :
  no_slash s = true ->
  match_segment w ("/"%char :: s ++ "/"%char :: r)
  = if word_digits w s then Some r else None.
Proof.
  intros Hs. unfold match_segment, word_digits.
  change (is_slash "/"%char) with true. cbv iota.
  rewrite strip_prefix_of_slash.
  destruct (strip_prefix_of w s) as [s2|] eqn:E; [|reflexivity].
  apply strip_prefix_of_inv in E. subst s.
  rewrite no_slash_app in Hs. apply andb_true_iff in Hs as [_ Hs].
  destruct s2 as [|d ds]; [reflexivity|]. simpl.
  simpl in Hs. apply andb_true_iff in Hs as [_ Hs].
  destruct (is_digit d); [|reflexivity]. simpl.
  apply skip_digits_slash, Hs.
Qed.

(** The last segment has no slash after it. *)
Lemma match_segment_last (s : str) :
  no_slash s = true -> match_segment w ("/"%char :: s) = None.
Proof.
  intros Hs. unfold match_segment.
  change (is_slash "/"%char) with true. cbv iota.
  destruct (strip_prefix_of w s) as [[|d t2]|] eqn:E; try reflexivity.
  apply strip_prefix_of_inv in E. subst s.
  rewrite no_slash_app in Hs. apply andb_true_iff in Hs as [_ Hs].
  simpl in Hs. apply andb_true_iff in Hs as [_ Hs].
  destruct (is_digit d); [|reflexivity].
  apply skip_digits_no_slash, Hs.
Qed.

Lemma sub_prefix (s y : str) :
  no_slash s = true -> sub_segment w (s ++ y) = s ++ sub_segment w y.
Proof.
  induction s as [|c s IH]; [reflexivity|]. simpl.
  rewrite andb_true_iff, negb_true_iff. intros [Hc Hs].
  unfold sub_segment. rewrite re_sub_skip by (apply match_segment_other, Hc).
  f_equal. apply IH, Hs.
Qed.

Lemma sub_no_slash (s : str) : no_slash s = true -> sub_segment w s = s.
Proof.
  intros Hs. rewrite <- (app_nil_r s) at 1.
  rewrite sub_prefix by exact Hs.
  unfold sub_segment. rewrite re_sub_nil by apply match_segment_shrinks.
  apply app_nil_r.
Qed.

(** The substitution on a text is the scan of its segments. *)
Lemma sub_join (l : list str) :
  Forall (fun s => no_slash s = true) l ->
  sub_segment w (join_slash l)
    = join_slash (scan_segments (word_digits w) (w ++ nines) false l)
  /\ sub_segment w ("/"%char :: join_slash l)
     = "/"%char
         :: join_slash (scan_segments (word_digits w) (w ++ nines) true l).
Proof.
  induction 1 as [|s rest Hs Hrest [IH1 IH2]].
  - split; [reflexivity|]. simpl. unfold sub_segment.
    rewrite re_sub_skip by (apply (match_segment_last []); reflexivity).
    rewrite re_sub_nil by apply match_segment_shrinks. reflexivity.
  - assert (H1 : sub_segment w (join_slash (s :: rest))
                 = join_slash (s :: scan_segments (word_digits w)
                                      (w ++ nines) true rest)).
    { destruct rest as [|x rest'].
      - simpl. apply sub_no_slash, Hs.
      - rewrite join_slash_cons by discriminate.
        rewrite sub_prefix by exact Hs. rewrite IH2.
        rewrite join_slash_cons
          by (apply scan_segments_nonempty; discriminate).
        reflexivity. }
    split; [exact H1|].
    simpl scan_segments.
    destruct rest as [|x rest'].
    + rewrite andb_false_r. simpl. unfold sub_segment.
      rewrite re_sub_skip by (apply match_segment_last, Hs).
      f_equal. apply sub_no_slash, Hs.
    + rewrite andb_true_r. simpl andb.
      rewrite join_slash_cons by discriminate.
      pose proof (match_segment_between s (join_slash (x :: rest')) Hs) as Hm.
      destruct (word_digits w s).
      * unfold sub_segment. rewrite (re_sub_match _ _ match_segment_shrinks _ _ Hm).
        fold (sub_segment w). rewrite IH1.
        rewrite join_slash_cons
          by (apply scan_segments_nonempty; discriminate).
        unfold segment_repl. simpl. rewrite <- !app_assoc. reflexivity.
      * unfold sub_segment. rewrite (re_sub_skip _ _ _ _ Hm). fold (sub_segment w).
        rewrite <- join_slash_cons by discriminate.
        rewrite H1. reflexivity.
Qed.
End SegmentView.

Lemma sub_version_join (l : list str) :
  Forall (fun s => no_slash s = true) l ->
  sub_version (join_slash l) = join_slash (scan_version false l).
Proof. intros H. exact (proj1 (sub_join (lit "version") eq_refl l H)). Qed.

Lemma sub_v_join (l : list str) :
  Forall (fun s => no_slash s = true) l ->
  sub_v (join_slash l) = join_slash (scan_v false l).
Proof. intros H. exact (proj1 (sub_join (lit "v") eq_refl l H)). Qed.

(** No segment is both [version\d+] and [v\d+]. *)
Lemma word_digits_exclusive (s : str) :
  word_digits (lit "v") s = true -> word_digits (lit "version") s = false.
Proof.
  unfold word_digits.
  change (lit "v") with ["v"%char].
  change (lit "version") with ("v"%char :: "e"%char :: lit "rsion").
  destruct s as [|c1 s]; [discriminate|]. cbn [strip_prefix_of].
  destruct (chr_eqb "v" c1); [|reflexivity].
  destruct s as [|c2 s]; [discriminate|]. cbn [strip_prefix_of].
  destruct (chr_eqb "e" c2) eqn:E; [|reflexivity].
  apply chr_eqb_eq in E. subst c2. discriminate.
Qed.

Lemma version_paths_join (l : list str) :
  Forall (fun s => no_slash s = true) l ->
  version_paths (join_slash l)
  = join_slash (scan_v false (scan_version false l)).
Proof.
  intros H. unfold version_paths.
  rewrite sub_version_join by exact H.
  apply sub_v_join, scan_segments_no_slash; [reflexivity | exact H].
Qed.

(** The internal branch is idempotent. *)
Lemma version_paths_idempotent (t : str) :
  version_paths (version_paths t) = version_paths t.
Proof.
  rewrite <- (join_split_slash t).
  pose proof (split_slash_no_slash t) as H.
  rewrite (version_paths_join _ H).
  rewrite version_paths_join
    by (do 2 (apply scan_segments_no_slash; [reflexivity|]); exact H).
  f_equal.
  rewrite (scan_segments_comm (word_digits (lit "version"))
             (word_digits (lit "v")) (lit "version9999999999")
             (lit "v9999999999") false false
             (scan_version false (split_slash t)));
    [| intros s Hs; destruct (word_digits (lit "v") s) eqn:E;
       [apply word_digits_exclusive in E; congruence | reflexivity]
     | reflexivity | reflexivity].
  rewrite scan_segments_idempotent by reflexivity.
  rewrite scan_segments_idempotent by reflexivity.
  reflexivity.
Qed.

(** ** The normaliser *)

(** C2: for every raw URL and every page domain, detected or empty,
    normalising a normalised URL (redaction of the query string, then the
    [/version<digits>/] and [/v<digits>/] segments of an internal URL) gives
    the same URL again. *)
Theorem canonical_url_idempotent (page_domain url : str) :
  canonical_url page_domain (canonical_url page_domain url)
  = canonical_url page_domain url.
Proof.
  unfold canonical_url. cbv zeta. rewrite !truthy_find.
  destruct (startswith page_domain (redact url)) eqn:E; simpl.
  - rewrite redact_version_paths.
    destruct (startswith page_domain (version_paths (redact url))); simpl.
    + apply version_paths_idempotent.
    + reflexivity.
  - rewrite redact_idempotent, E. reflexivity.
Qed.




Lemma before_qmark_none (u : str) : has_qmark u = false -> before_qmark u = u.
Proof.
  induction u as [|c u IH]; [reflexivity|]. simpl.
  destruct (is_qmark c); [discriminate|]. simpl. intros H. rewrite IH; auto.
Qed.





(** ** The page domain *)

Lemma match_nocase_inv (p t r : str) :
  match_nocase p t = Some r -> exists s, t = s ++ r /\ lower s = lower p.
Proof.
  revert t. induction p as [|a p IH]; intros t; simpl.
  - intros [= ->]. exists []. auto.
  - destruct t as [|b t]; [discriminate|].
    destruct (chr_eqb (lower_chr a) (lower_chr b)) eqn:E; [|discriminate].
    apply chr_eqb_eq in E. intros H.
    destruct (IH _ H) as (s & -> & Hs). exists (b :: s).
    split; [reflexivity|]. unfold lower in *. simpl. rewrite Hs, E.
    reflexivity.
Qed.

Lemma match_nocase_app (p s r : str) :
  lower s = lower p -> match_nocase p (s ++ r) = Some r.
Proof.
  revert s. induction p as [|a p IH]; intros s; simpl.
  - destruct s; [reflexivity | discriminate].
  - destruct s as [|b s]; [discriminate|]. unfold lower. simpl.
    intros [= Hb Hs]. rewrite Hb, chr_eqb_refl. apply IH, Hs.
Qed.

Lemma host_length_app (host rest : str) :
  no_slash host = true ->
  (rest = [] \/ exists rest', rest = "/"%char :: rest') ->
  host_length (host ++ rest) = length host.
Proof.
  intros Hh Hr. induction host as [|c host IH]; simpl.
  - destruct Hr as [-> | [rest' ->]]; reflexivity.
  - simpl in Hh. apply andb_true_iff in Hh as [Hc Hh].
    apply negb_true_iff in Hc. rewrite Hc, IH by exact Hh. reflexivity.
Qed.

Lemma host_length_split (t : str) :
  exists rest,
    t = firstn (host_length t) t ++ rest
    /\ no_slash (firstn (host_length t) t) = true
    /\ (rest = [] \/ exists rest', rest = "/"%char :: rest').
Proof.
  induction t as [|c t (rest & IH1 & IH2 & IH3)]; simpl.
  - exists []. auto.
  - destruct (is_slash c) eqn:E.
    + exists (c :: t). simpl. repeat split. right.
      apply chr_eqb_eq in E. subst c. eauto.
    + exists rest. simpl. rewrite E, IH2, <- IH1. auto.
Qed.

(** Without a page domain every URL is found at index 0. *)
Lemma canonical_url_no_domain (u : str) :
  canonical_url [] u = version_paths (redact u).
Proof. unfold canonical_url. cbv zeta. rewrite truthy_find. reflexivity. Qed.

Lemma canonical_url_domain (d u : str) :
  canonical_url d u
  = if startswith d (redact u) then version_paths (redact u) else redact u.
Proof.
  unfold canonical_url. cbv zeta. rewrite truthy_find.
  destruct (startswith d (redact u)); reflexivity.
Qed.

Lemma find_domain_spec (title d : str) :
  find_domain title = Some d <->
  exists scheme host rest,
    title = scheme ++ host ++ rest
    /\ lower scheme = lit "https://"
    /\ host <> [] /\ no_slash host = true
    /\ (rest = [] \/ exists rest', rest = "/"%char :: rest')
    /\ d = scheme ++ host.
Proof.
  unfold find_domain. split.
  - destruct (match_nocase (lit "https://") title) as [r|] eqn:E;
      [|discriminate].
    destruct (match_nocase_inv _ _ _ E) as (scheme & -> & Hs).
    destruct (host_length_split r) as (rest & Hr & Hh & Hrest).
    destruct (host_length r) as [|n] eqn:En; [discriminate|].
    intros [= <-]. exists scheme, (firstn (S n) r), rest.
    assert (Hlen : length scheme = 8%nat).
    { apply (f_equal (@length ascii)) in Hs. unfold lower in Hs.
      rewrite !length_map in Hs. exact Hs. }
    repeat split; try assumption.
    + rewrite <- Hr. reflexivity.
    + destruct r; [discriminate | discriminate].
    + rewrite firstn_app, Hlen.
      replace (8 + S n - 8)%nat with (S n) by lia.
      rewrite firstn_all2 by lia. reflexivity.
  - intros (scheme & host & rest & -> & Hs & Hne & Hh & Hrest & ->).
    rewrite (match_nocase_app _ scheme (host ++ rest)) by exact Hs.
    rewrite host_length_app by assumption.
    assert (Hlen : length scheme = 8%nat).
    { apply (f_equal (@length ascii)) in Hs. unfold lower in Hs.
      rewrite length_map in Hs. exact Hs. }
    destruct host as [|c host]; [congruence|]. simpl length.
    f_equal. rewrite firstn_app, Hlen.
    replace (8 + S (length host) - 8)%nat with (length (c :: host))
      by (simpl; lia).
    rewrite firstn_all2 by lia.
    rewrite firstn_app, Nat.sub_diag, firstn_all. simpl.
    rewrite app_nil_r. reflexivity.
Qed.

(** C10: a page domain is found exactly when the title starts, in any
    letter case, with [https://] and at least one character other than the
    slash; the domain is that start of the title up to the next slash.  A
    title that starts with [http://] gives none.  Without a domain every
    URL takes the branch that rewrites version segments; with a domain the
    URLs that start with it do. *)
Theorem find_domain_https_only (title : str) :
  (forall d, find_domain title = Some d <->
     exists scheme host rest,
       title = scheme ++ host ++ rest
       /\ lower scheme = lit "https://"
       /\ host <> [] /\ no_slash host = true
       /\ (rest = [] \/ exists rest', rest = "/"%char :: rest')
       /\ d = scheme ++ host)
  /\ (forall rest, title = lit "http://" ++ rest -> find_domain title = None)
  /\ (find_domain title = None ->
      forall u, canonical_url (page_domain_of title) u
                = version_paths (redact u))
  /\ (forall d, find_domain title = Some d ->
      forall u, canonical_url (page_domain_of title) u
                = if startswith d (redact u) then version_paths (redact u)
                  else redact u).
Proof.
  split; [|split; [|split]].
  - intros d. apply find_domain_spec.
  - intros rest ->. reflexivity.
  - intros H u. unfold page_domain_of. rewrite H.
    apply canonical_url_no_domain.
  - intros d H u. unfold page_domain_of. rewrite H.
    apply canonical_url_domain.
Qed.

Lemma find_domain_https_only_witness :
  find_domain (lit "http://example.com/shop") = None
  /\ canonical_url (page_domain_of (lit "http://example.com/shop"))
       (lit "http://other.org/v3/a.js")
     = version_paths (redact (lit "http://other.org/v3/a.js")).
Proof.
  destruct (find_domain_https_only (lit "http://example.com/shop"))
    as (_ & H2 & H3 & _).
  pose proof (H2 (lit "example.com/shop") eq_refl) as HN.
  split; [exact HN | exact (H3 HN _)].
Defined.

(** C1 fails on the code: the title of [doc_no_origin] holds no page domain,
    and the file is recorded under a key in which [/v12/] has been
    rewritten, not under the raw URL with its query string redacted. *)
Theorem getJS_no_origin_rewrites_version :
  find_domain (lit "Example shop") = None
  /\ exists run,
       getJS doc_no_origin false = Some run
       /\ is_Some (JSFiles (returned run)
                     !! lit "http://cdn.example.com/v9999999999/app.js[qstring redacted]")
       /\ JSFiles (returned run)
            !! lit "http://cdn.example.com/v12/app.js[qstring redacted]"
          = None.
Proof.
  split; [reflexivity|]. eexists. split; [reflexivity|]. split.
  - vm_compute. eexists. reflexivity.
  - vm_compute. reflexivity.
Qed.

(** ** Query strings and the canonical URL *)













(** ** The loops of getJS *)

Lemma existsb_js_count (hs : list Header) :
  existsb is_js_header hs
  = negb (length (List.filter is_js_header hs) =? 0)%nat.
Proof.
  induction hs as [|h hs IH]; [reflexivity|]. simpl.
  destruct (is_js_header h); [reflexivity | exact IH].
Qed.

Lemma header_step_other (debug : bool) (u : str) (entry : Entry)
    (st : HeaderLoop) (h : Header) :
  is_js_header h = false -> header_step debug u entry st h = st.
Proof. intros E. unfold header_step. rewrite E. reflexivity. Qed.

Lemma header_step_js (debug : bool) (u : str) (entry : Entry)
    (st : HeaderLoop) (h : Header) :
  is_js_header h = true ->
  let T := default placeholder (hl_text st) in
  let r := header_step debug u entry st h in
  hl_text r = Some T
  /\ hl_m r = hl_m st ++ encode_utf8 T
  /\ hl_files r
     = <[u := {| js_size := c_size (content (response entry));
                 js_hash := md5_hexdigest (hl_m st ++ encode_utf8 T);
                 js_text := lit "redacted";
                 js_referer := referer_of (req_headers (request entry)) |}]>
         (hl_files st).
Proof.
  intros E. unfold header_step. rewrite E.
  destruct (hl_text st); repeat split; reflexivity.
Qed.

(** The loop over the response headers of one entry. *)
Lemma header_loop (debug : bool) (u : str) (entry : Entry)
    (hs : list Header) (st : HeaderLoop) :
  let k := length (List.filter is_js_header hs) in
  let T := default placeholder (hl_text st) in
  let r := fold_left (header_step debug u entry) hs st in
  match k with
  | O => r = st
  | S _ =>
      hl_text r = Some T
      /\ hl_m r = hl_m st ++ concat (repeat (encode_utf8 T) k)
      /\ hl_files r
         = <[u := {| js_size := c_size (content (response entry));
                     js_hash :=
                       md5_hexdigest
                         (hl_m st ++ concat (repeat (encode_utf8 T) k));
                     js_text := lit "redacted";
                     js_referer :=
                       referer_of (req_headers (request entry)) |}]>
             (hl_files st)
  end.
Proof.
  revert st. induction hs as [|h hs IH]; intros st; [reflexivity|].
  cbn [fold_left List.filter]. destruct (is_js_header h) eqn:E.
  - specialize (IH (header_step debug u entry st h)). cbv zeta in IH.
    destruct (header_step_js debug u entry st h E) as (H1 & H2 & H3).
    rewrite H1, H2, H3 in IH. cbn [default] in IH.
    cbn [length repeat concat].
    destruct (length (List.filter is_js_header hs)) as [|k'].
    + rewrite IH. cbn [repeat concat]. rewrite app_nil_r. auto.
    + destruct IH as (IH1 & IH2 & IH3).
      rewrite IH1, IH2, IH3, <- !app_assoc, insert_insert_eq. auto.
  - rewrite (header_step_other debug u entry st h E). apply IH.
Qed.

(** What the loop over the response headers prints when [debug] is off. *)
Lemma header_loop_out (u : str) (entry : Entry) (hs : list Header)
    (st : HeaderLoop) :
  hl_out (fold_left (header_step false u entry) hs st)
  = hl_out st
    ++ (if existsb is_js_header hs
        then match hl_text st with
             | Some _ => []
             | None => [lit "Anomoly ignored: no text content in " ++ u]
             end
        else []).
Proof.
  revert st. induction hs as [|h hs IH]; intros st; cbn [fold_left existsb].
  - rewrite app_nil_r. reflexivity.
  - rewrite IH. unfold header_step. destruct (is_js_header h) eqn:E.
    + destruct (hl_text st); cbn [hl_out hl_text orb];
        rewrite ?app_nil_l, ?app_nil_r;
        destruct (existsb is_js_header hs); rewrite ?app_nil_r; reflexivity.
    + reflexivity.
Qed.

Lemma set_text_same (entry : Entry) :
  set_text entry (c_text (content (response entry))) = entry.
Proof. destruct entry as [rq [hs [t z]]]. reflexivity. Qed.

(** One entry: its record, and the entry as it is left. *)
Lemma entry_step_files (debug : bool) (d : str) (st : EntryLoop)
    (entry : Entry) :
  el_files (entry_step debug d st entry) = recorded d entry (el_files st).
Proof.
  unfold entry_step, recorded, hashed_bytes, js_count. cbv zeta.
  pose proof (header_loop debug (canonical_url d (url (request entry))) entry
                (resp_headers (response entry))
                {| hl_text := c_text (content (response entry));
                   hl_m := md5_new;
                   hl_files := el_files st;
                   hl_out := el_out st |}) as H.
  cbv zeta in H. simpl in H |- *.
  destruct (length (List.filter is_js_header (resp_headers (response entry)))).
  - rewrite H. reflexivity.
  - destruct H as (_ & _ & H). rewrite H. reflexivity.
Qed.

Lemma entry_step_entries (debug : bool) (d : str) (st : EntryLoop)
    (entry : Entry) :
  el_entries (entry_step debug d st entry) = el_entries st ++ [filled entry].
Proof.
  unfold entry_step, filled. cbv zeta.
  pose proof (header_loop debug (canonical_url d (url (request entry))) entry
                (resp_headers (response entry))
                {| hl_text := c_text (content (response entry));
                   hl_m := md5_new;
                   hl_files := el_files st;
                   hl_out := el_out st |}) as H.
  cbv zeta in H. simpl in H |- *. rewrite existsb_js_count.
  destruct (length (List.filter is_js_header (resp_headers (response entry)))).
  - rewrite H. simpl. rewrite set_text_same. reflexivity.
  - destruct H as (H & _ & _). rewrite H. simpl.
    destruct (c_text (content (response entry))) eqn:Et; simpl; [|reflexivity].
    rewrite <- Et, set_text_same. reflexivity.
Qed.

Lemma entry_step_out (d : str) (st : EntryLoop) (entry : Entry) :
  el_out (entry_step false d st entry) = el_out st ++ anomaly_lines d entry.
Proof.
  unfold entry_step, anomaly_lines. cbv zeta. simpl.
  rewrite header_loop_out. reflexivity.
Qed.

(** The loop over the entries. *)
Lemma entry_loop_files (debug : bool) (d : str) (es : list Entry)
    (st : EntryLoop) :
  el_files (fold_left (entry_step debug d) es st)
  = fold_left (fun files e => recorded d e files) es (el_files st).
Proof.
  revert st. induction es as [|e es IH]; intros st; [reflexivity|].
  simpl. rewrite IH, entry_step_files. reflexivity.
Qed.

Lemma entry_loop_entries (debug : bool) (d : str) (es : list Entry)
    (st : EntryLoop) :
  el_entries (fold_left (entry_step debug d) es st)
  = el_entries st ++ map filled es.
Proof.
  revert st. induction es as [|e es IH]; intros st; simpl.
  - rewrite app_nil_r. reflexivity.
  - rewrite IH, entry_step_entries, <- app_assoc. reflexivity.
Qed.

Lemma entry_loop_out (d : str) (es : list Entry) (st : EntryLoop) :
  el_out (fold_left (entry_step false d) es st)
  = el_out st ++ flat_map (anomaly_lines d) es.
Proof.
  revert st. induction es as [|e es IH]; intros st; simpl.
  - rewrite app_nil_r. reflexivity.
  - rewrite IH, entry_step_out, <- app_assoc. reflexivity.
Qed.

(** [getJS] returns on every document that has a page. *)
Lemma getJS_returns (outerDict : HarDoc) (debug : bool) (page : Page)
    (others : list Page) :
  pages (log outerDict) = page :: others ->
  exists run,
    getJS outerDict debug = Some run
    /\ JSFiles (returned run)
       = fold_left (fun files e => recorded (page_domain_of (title page)) e files)
           (entries (log outerDict)) ∅
    /\ fileDetails (returned run)
       = {| fd_title := title page;
            fd_startedDateTime := startedDateTime page |}
    /\ document run
       = {| log := {| pages := pages (log outerDict);
                      entries := map filled (entries (log outerDict)) |} |}
    /\ (debug = false ->
        printed run
        = match find_domain (title page) with
          | Some d => [lit "Page domain is " ++ d]
          | None => []
          end ++ flat_map (anomaly_lines (page_domain_of (title page)))
                   (entries (log outerDict))).
Proof.
  intros Hp. unfold getJS, page_domain_of. rewrite Hp. simpl.
  destruct (find_domain (title page)) as [d|]; eexists;
    (split; [reflexivity|]); simpl;
    rewrite entry_loop_files, entry_loop_entries; simpl;
    (repeat split; try reflexivity);
    intros ->; rewrite entry_loop_out; reflexivity.
Qed.

Lemma getJS_inv (outerDict : HarDoc) (debug : bool) (run : Run) :
  getJS outerDict debug = Some run ->
  exists page others, pages (log outerDict) = page :: others.
Proof.
  unfold getJS. destruct (pages (log outerDict)) as [|page others];
    [discriminate | eauto].
Qed.

(** ** What getJS records *)

Lemma recorded_other (d : str) (e : Entry) (files : gmap str JSFile)
    (k : str) :
  js_count e = 0%nat \/ canonical_url d (url (request e)) <> k ->
  recorded d e files !! k = files !! k.
Proof.
  unfold recorded. intros [-> | H]; [reflexivity|].
  destruct (js_count e); [reflexivity|]. apply lookup_insert_ne, H.
Qed.

Lemma recorded_fold_other (d : str) (es : list Entry)
    (files : gmap str JSFile) (k : str) :
  (forall e, In e es ->
             js_count e = 0%nat \/ canonical_url d (url (request e)) <> k) ->
  fold_left (fun files e => recorded d e files) es files !! k = files !! k.
Proof.
  revert files. induction es as [|e es IH]; intros files H; [reflexivity|].
  simpl. rewrite IH by (intros e' He'; apply H; right; exact He').
  apply recorded_other, H. left. reflexivity.
Qed.

Lemma recorded_self (d : str) (e : Entry) (files : gmap str JSFile) :
  js_count e <> 0%nat ->
  recorded d e files !! canonical_url d (url (request e))
  = Some {| js_size := c_size (content (response e));
            js_hash := md5_hexdigest (hashed_bytes e);
            js_text := lit "redacted";
            js_referer := referer_of (req_headers (request e)) |}.
Proof.
  unfold recorded. destruct (js_count e); [congruence|]. intros _.
  apply lookup_insert_eq.
Qed.

(** With one JavaScript content type the hash is the fingerprint of the
    text, or of the placeholder. *)
Lemma hashed_once (e : Entry) :
  js_count e = 1%nat ->
  md5_hexdigest (hashed_bytes e)
  = fingerprint (default placeholder (c_text (content (response e)))).
Proof.
  intros H. unfold hashed_bytes, fingerprint, md5_update, md5_new.
  rewrite H. simpl. rewrite app_nil_r. reflexivity.
Qed.

Lemma filled_missing (e : Entry) :
  js_count e <> 0%nat -> c_text (content (response e)) = None ->
  filled e = set_text e (Some placeholder).
Proof.
  intros Hk Ht. unfold filled. rewrite existsb_js_count, Ht.
  unfold js_count in Hk.
  destruct (length (List.filter is_js_header (resp_headers (response e))));
    [congruence | reflexivity].
Qed.

(** C6, as the code has it: an entry with one JavaScript content type and
    no body text does not make [getJS] fail; its text becomes the string
    ["ADDED TEXT TO ANOMOLY"], and the file is recorded with the MD5 digest
    of that string, which is the same for every such entry.  The record is
    the one found under the entry's key when no later JavaScript entry has
    the same key. *)
Theorem getJS_missing_text (outerDict : HarDoc) (debug : bool) (page : Page)
    (others : list Page) (before after : list Entry) (entry : Entry) :
  pages (log outerDict) = page :: others ->
  entries (log outerDict) = before ++ entry :: after ->
  c_text (content (response entry)) = None ->
  js_count entry = 1%nat ->
  (forall e, In e after ->
     js_count e = 0%nat
     \/ canonical_url (page_domain_of (title page)) (url (request e))
        <> canonical_url (page_domain_of (title page)) (url (request entry))) ->
  exists run,
    getJS outerDict debug = Some run
    /\ JSFiles (returned run)
         !! canonical_url (page_domain_of (title page)) (url (request entry))
       = Some {| js_size := c_size (content (response entry));
                 js_hash := fingerprint (lit "ADDED TEXT TO ANOMOLY");
                 js_text := lit "redacted";
                 js_referer := referer_of (req_headers (request entry)) |}
    /\ fingerprint (lit "ADDED TEXT TO ANOMOLY")
       = lit "c5c94fe63c9e1dd32c92ff6881afee64"
    /\ In (set_text entry (Some (lit "ADDED TEXT TO ANOMOLY")))
          (entries (log (document run))).
Proof.
  intros Hp He Ht Hk Hafter.
  destruct (getJS_returns outerDict debug page others Hp)
    as (run & Hrun & Hfiles & _ & Hdoc & _).
  exists run. split; [exact Hrun|]. split; [|split].
  - rewrite Hfiles, He, fold_left_app. simpl.
    rewrite recorded_fold_other by exact Hafter.
    rewrite recorded_self by lia. rewrite (hashed_once _ Hk), Ht.
    reflexivity.
  - vm_compute. reflexivity.
  - rewrite Hdoc, He. simpl. rewrite map_app. simpl.
    apply in_or_app. right. left.
    apply filled_missing; [lia | exact Ht].
Qed.

Lemma getJS_missing_text_witness :
  exists run,
    getJS doc_no_text false = Some run
    /\ JSFiles (returned run) !! lit "https://example.com/app.js"
       = Some {| js_size := 1;
                 js_hash := fingerprint (lit "ADDED TEXT TO ANOMOLY");
                 js_text := lit "redacted";
                 js_referer := [] |}
    /\ fingerprint (lit "ADDED TEXT TO ANOMOLY")
       = lit "c5c94fe63c9e1dd32c92ff6881afee64"
    /\ In (set_text
             (sample_entry (lit "https://example.com/app.js") [js_header] None)
             (Some (lit "ADDED TEXT TO ANOMOLY")))
          (entries (log (document run))).
Proof.
  apply (getJS_missing_text doc_no_text false
           {| title := lit "https://example.com/";
              startedDateTime := lit "2020-05-01T10:00:00Z" |}
           [] [] []
           (sample_entry (lit "https://example.com/app.js") [js_header] None)).
  - reflexivity.
  - reflexivity.
  - reflexivity.
  - reflexivity.
  - intros e [].
Defined.

(** C6, as stated, fails: the text written into a response without text is
    not ["ADDED TEXT TO ANOMALY"], and the hash recorded is not the digest of
    that string. *)
Lemma getJS_missing_text_counterexample :
  exists run file,
    getJS doc_no_text false = Some run
    /\ JSFiles (returned run) !! lit "https://example.com/app.js" = Some file
    /\ js_hash file <> md5_hexdigest (encode_utf8 (lit "ADDED TEXT TO ANOMALY"))
    /\ map (fun e => c_text (content (response e)))
         (entries (log (document run)))
       = [Some (lit "ADDED TEXT TO ANOMOLY")]
    /\ lit "ADDED TEXT TO ANOMOLY" <> lit "ADDED TEXT TO ANOMALY".
Proof.
  eexists. eexists. split; [reflexivity|]. split; [|split; [|split]].
  - vm_compute. reflexivity.
  - intros H. vm_compute in H. discriminate H.
  - vm_compute. reflexivity.
  - discriminate.
Qed.

(** C5 fails on the code: a response that carries its JavaScript content
    type twice has its text fed twice to the hash object; the hash recorded
    for the body ["a"] is the digest of ["aa"]. *)
Theorem getJS_two_headers_hash_twice :
  exists run file,
    getJS doc_two_headers false = Some run
    /\ JSFiles (returned run) !! lit "https://example.com/app.js" = Some file
    /\ js_hash file = md5_hexdigest (encode_utf8 (lit "aa"))
    /\ js_hash file <> md5_hexdigest (encode_utf8 (lit "a")).
Proof.
  eexists. eexists. split; [reflexivity|]. split; [|split].
  - vm_compute. reflexivity.
  - vm_compute. reflexivity.
  - intros H. vm_compute in H. discriminate H.
Qed.

(** With one JavaScript content type, the hash recorded is the digest of the
    encoded text, or of the placeholder. *)
Lemma getJS_hash_once (outerDict : HarDoc) (debug : bool) (page : Page)
    (others : list Page) (before after : list Entry) (entry : Entry) :
  pages (log outerDict) = page :: others ->
  entries (log outerDict) = before ++ entry :: after ->
  js_count entry = 1%nat ->
  (forall e, In e after ->
     js_count e = 0%nat
     \/ canonical_url (page_domain_of (title page)) (url (request e))
        <> canonical_url (page_domain_of (title page)) (url (request entry))) ->
  exists run file,
    getJS outerDict debug = Some run
    /\ JSFiles (returned run)
         !! canonical_url (page_domain_of (title page)) (url (request entry))
       = Some file
    /\ js_hash file
       = md5_hexdigest
           (encode_utf8
              (default placeholder (c_text (content (response entry))))).
Proof.
  intros Hp He Hk Hafter.
  destruct (getJS_returns outerDict debug page others Hp)
    as (run & Hrun & Hfiles & _).
  exists run. eexists. split; [exact Hrun|]. split.
  - rewrite Hfiles, He, fold_left_app. simpl.
    rewrite recorded_fold_other by exact Hafter.
    apply recorded_self. lia.
  - simpl. apply (hashed_once _ Hk).
Qed.

(** ** The document after the extraction *)

Lemma filled_with_text (e : Entry) :
  (existsb is_js_header (resp_headers (response e)) = true ->
   c_text (content (response e)) <> None) ->
  filled e = e.
Proof.
  unfold filled. intros H.
  destruct (existsb is_js_header (resp_headers (response e)));
    [|reflexivity].
  destruct (c_text (content (response e))); [reflexivity|].
  exfalso. apply H; reflexivity.
Qed.

(** C8, as the code has it: the extraction leaves the pages and the entries
    of the document as they are, but for the entries with a JavaScript
    content type and no body text: their text is set to the placeholder.  A
    document in which every JavaScript entry has a text is unchanged.  With
    [debug] off the call prints one line for the page domain, when there is
    one, and one line for each entry whose text it sets. *)
Theorem getJS_document (outerDict : HarDoc) (debug : bool) (run : Run) :
  getJS outerDict debug = Some run ->
  document run
    = {| log := {| pages := pages (log outerDict);
                   entries := map filled (entries (log outerDict)) |} |}
  /\ ((forall e, In e (entries (log outerDict)) ->
         existsb is_js_header (resp_headers (response e)) = true ->
         c_text (content (response e)) <> None) ->
      document run = outerDict)
  /\ (debug = false ->
      printed run
      = match find_domain (fd_title (fileDetails (returned run))) with
        | Some d => [lit "Page domain is " ++ d]
        | None => []
        end
        ++ flat_map
             (anomaly_lines
                (page_domain_of (fd_title (fileDetails (returned run)))))
             (entries (log outerDict))).
Proof.
  intros Hrun. destruct (getJS_inv _ _ _ Hrun) as (page & others & Hp).
  destruct (getJS_returns outerDict debug page others Hp)
    as (run' & Hrun' & _ & Hfd & Hdoc & Hout).
  rewrite Hrun in Hrun'. injection Hrun' as <-.
  split; [exact Hdoc|]. split.
  - intros Hall. rewrite Hdoc.
    destruct outerDict as [[ps es]]. simpl in *. do 2 f_equal.
    clear -Hall. induction es as [|e es IH]; [reflexivity|]. simpl.
    rewrite filled_with_text by (apply Hall; left; reflexivity).
    rewrite IH by (intros e' He'; apply Hall; right; exact He').
    reflexivity.
  - intros Hd. rewrite Hfd. simpl. apply Hout, Hd.
Qed.

Lemma getJS_document_witness :
  exists run,
    getJS (doc_body (lit "a")) false = Some run
    /\ document run = doc_body (lit "a")
    /\ printed run = [lit "Page domain is https://example.com"].
Proof.
  exists {| returned :=
              {| JSFiles :=
                   <[lit "https://example.com/app.js" :=
                       {| js_size := 1;
                          js_hash := fingerprint (lit "a");
                          js_text := lit "redacted";
                          js_referer := [] |}]> ∅;
                 fileDetails :=
                   {| fd_title := lit "https://example.com/";
                      fd_startedDateTime := lit "2020-05-01T10:00:00Z" |} |};
            document := doc_body (lit "a");
            printed := [lit "Page domain is https://example.com"] |}.
  assert (H : getJS (doc_body (lit "a")) false = Some
     {| returned :=
              {| JSFiles :=
                   <[lit "https://example.com/app.js" :=
                       {| js_size := 1;
                          js_hash := fingerprint (lit "a");
                          js_text := lit "redacted";
                          js_referer := [] |}]> ∅;
                 fileDetails :=
                   {| fd_title := lit "https://example.com/";
                      fd_startedDateTime := lit "2020-05-01T10:00:00Z" |} |};
            document := doc_body (lit "a");
            printed := [lit "Page domain is https://example.com"] |})
    by (vm_compute; reflexivity).
  split; [exact H|].
  destruct (getJS_document _ _ _ H) as (_ & H2 & H3).
  split.
  - apply H2. intros e [<- | []] _. discriminate.
  - reflexivity.
Defined.

(** C8, as stated, fails: the entry without text of [doc_no_text] has a
    text after the call, and the call has printed. *)
Lemma getJS_document_counterexample :
  exists run,
    getJS doc_no_text false = Some run
    /\ document run <> doc_no_text
    /\ printed run
       = [lit "Page domain is https://example.com";
          lit "Anomoly ignored: no text content in https://example.com/app.js"].
Proof.
  eexists. split; [reflexivity|]. split.
  - intros H. vm_compute in H. discriminate H.
  - vm_compute. reflexivity.
Qed.

(** ** Fingerprints *)

Lemma unhex_hex_byte (b : byte) : unhex_byte (MD5.hex_byte b) = Some b.
Proof. destruct b; vm_compute; reflexivity. Qed.

Lemma hex_inj (bs1 bs2 : bytes) : MD5.hex bs1 = MD5.hex bs2 -> bs1 = bs2.
Proof.
  revert bs2. induction bs1 as [|b1 bs1 IH]; intros [|b2 bs2];
    try reflexivity; try discriminate.
  unfold MD5.hex. simpl. intros H. injection H as H1 H2 H3.
  f_equal; [|apply IH, H3].
  pose proof (unhex_hex_byte b1) as U1. pose proof (unhex_hex_byte b2) as U2.
  unfold MD5.hex_byte in U1, U2. rewrite H1, H2 in U1. congruence.
Qed.

Lemma fingerprint_digest (body : str) :
  fingerprint body = MD5.hex (MD5.digest (encode_utf8 body)).
Proof. reflexivity. Qed.

(** C9, as the code has it: the fingerprints of two body texts differ
    exactly when the MD5 digests of their UTF-8 encodings differ; two texts
    with different fingerprints are different texts. *)
Theorem fingerprint_differs (bodyA bodyB : str) :
  (fingerprint bodyA <> fingerprint bodyB
   <-> MD5.digest (encode_utf8 bodyA) <> MD5.digest (encode_utf8 bodyB))
  /\ (fingerprint bodyA <> fingerprint bodyB -> bodyA <> bodyB).
Proof.
  rewrite !fingerprint_digest. split; [split|].
  - intros H E. apply H. rewrite E. reflexivity.
  - intros H E. apply H, hex_inj, E.
  - intros H E. apply H. rewrite E. reflexivity.
Qed.

Lemma fingerprint_differs_witness :
  fingerprint (lit "var a = 1;") <> fingerprint (lit "var a = 2;").
Proof.
  apply (proj1 (fingerprint_differs (lit "var a = 1;") (lit "var a = 2;"))).
  intros H. vm_compute in H. discriminate H.
Defined.

(** C9, as stated, fails: two different texts with the same fingerprint,
    recorded as the same hash by [getJS]. *)
Lemma fingerprint_counterexample :
  collision_a <> collision_b
  /\ fingerprint collision_a = fingerprint collision_b
  /\ (exists runA runB fileA fileB,
        getJS (doc_body collision_a) false = Some runA
        /\ getJS (doc_body collision_b) false = Some runB
        /\ JSFiles (returned runA) !! lit "https://example.com/app.js"
           = Some fileA
        /\ JSFiles (returned runB) !! lit "https://example.com/app.js"
           = Some fileB
        /\ js_hash fileA = js_hash fileB).
Proof.
  split; [|split].
  - intros H. vm_compute in H. discriminate H.
  - vm_compute. reflexivity.
  - do 4 eexists. split; [reflexivity|]. split; [reflexivity|].
    split; [vm_compute; reflexivity|]. split; [vm_compute; reflexivity|].
    vm_compute. reflexivity.
Qed.

(** ** compareJS *)

(** What the loop over [compDict] has found. *)
Lemma compareJS_spec (baseDict compDict : gmap str JSFile) (k : str) :
  (newJS (compareJS baseDict compDict) !! k
   = match compDict !! k, baseDict !! k with
     | Some _, None => Some 1
     | _, _ => None
     end)
  /\ (hashDifferentJS (compareJS baseDict compDict) !! k
      = match compDict !! k, baseDict !! k with
        | Some comp, Some base =>
            if negb (str_eqb (js_hash base) (js_hash comp))
            then Some {| baseline := js_hash base; compare := js_hash comp |}
            else None
        | _, _ => None
        end).
Proof.
  unfold compareJS.
  apply (map_fold_weak_ind
           (fun (d : Differences) (m : gmap str JSFile) =>
              (newJS d !! k
               = match m !! k, baseDict !! k with
                 | Some _, None => Some 1
                 | _, _ => None
                 end)
              /\ (hashDifferentJS d !! k
                  = match m !! k, baseDict !! k with
                    | Some comp, Some base =>
                        if negb (str_eqb (js_hash base) (js_hash comp))
                        then Some {| baseline := js_hash base;
                                     compare := js_hash comp |}
                        else None
                    | _, _ => None
                    end))).
  - simpl. rewrite !lookup_empty. auto.
  - intros key comp m d Hkey [IH1 IH2]. unfold compare_step.
    destruct (decide (key = k)) as [-> | Hne].
    + rewrite Hkey in IH1, IH2. rewrite lookup_insert_eq.
      destruct (baseDict !! k) as [base|]; simpl.
      * destruct (negb (str_eqb (js_hash base) (js_hash comp))); simpl;
          rewrite ?lookup_insert_eq; auto.
      * rewrite lookup_insert_eq. auto.
    + rewrite (lookup_insert_ne m) by exact Hne.
      destruct (baseDict !! key) as [base|]; simpl.
      * destruct (negb (str_eqb (js_hash base) (js_hash comp))); simpl;
          rewrite ?lookup_insert_ne by exact Hne; auto.
      * rewrite lookup_insert_ne by exact Hne. auto.
Qed.

Lemma str_eqb_false (a b : str) : negb (str_eqb a b) = true <-> a <> b.
Proof.
  unfold str_eqb. rewrite negb_true_iff, bool_decide_eq_false. reflexivity.
Qed.

(** C3: a key of the comparison dictionary is in [newJS] exactly when it is
    no key of the baseline; it is in [hashDifferentJS], with the two hashes,
    exactly when it is a key of the baseline with another hash; with the
    same hash it is in neither. *)
Theorem compareJS_classifies (baseDict compDict : gmap str JSFile)
    (key : str) (comp : JSFile) :
  compDict !! key = Some comp ->
  (is_Some (newJS (compareJS baseDict compDict) !! key)
   <-> baseDict !! key = None)
  /\ (forall pair,
        hashDifferentJS (compareJS baseDict compDict) !! key = Some pair
        <-> exists base,
              baseDict !! key = Some base
              /\ js_hash base <> js_hash comp
              /\ pair = {| baseline := js_hash base;
                           compare := js_hash comp |})
  /\ (forall base,
        baseDict !! key = Some base -> js_hash base = js_hash comp ->
        newJS (compareJS baseDict compDict) !! key = None
        /\ hashDifferentJS (compareJS baseDict compDict) !! key = None).
Proof.
  intros Hc. destruct (compareJS_spec baseDict compDict key) as [H1 H2].
  rewrite Hc in H1, H2. rewrite H1, H2. clear H1 H2.
  split; [|split].
  - destruct (baseDict !! key); split; intros H;
      try reflexivity; try discriminate; eauto.
    destruct H as [x H]. discriminate.
  - intros pair. destruct (baseDict !! key) as [base|].
    + destruct (negb (str_eqb (js_hash base) (js_hash comp))) eqn:E.
      * apply str_eqb_false in E. split.
        -- intros [= <-]. eauto.
        -- intros (b & [= <-] & _ & ->). reflexivity.
      * split; [discriminate|]. intros (b & [= <-] & Hne & _).
        apply str_eqb_false in Hne. congruence.
    + split; [discriminate | intros (b & Hb & _); discriminate].
  - intros base -> Heq. split; [reflexivity|].
    destruct (negb (str_eqb (js_hash base) (js_hash comp))) eqn:E;
      [|reflexivity].
    apply str_eqb_false in E. congruence.
Qed.

(** C4: a key of the baseline that is no key of the comparison dictionary
    is neither in [newJS] nor in [hashDifferentJS]. *)
Theorem compareJS_ignores_removed (baseDict compDict : gmap str JSFile)
    (key : str) :
  is_Some (baseDict !! key) -> compDict !! key = None ->
  newJS (compareJS baseDict compDict) !! key = None
  /\ hashDifferentJS (compareJS baseDict compDict) !! key = None.
Proof.
  intros _ Hc. destruct (compareJS_spec baseDict compDict key) as [H1 H2].
  rewrite Hc in H1, H2. auto.
Qed.

Lemma compareJS_classifies_witness :
  hashDifferentJS (compareJS sample_base sample_comp) !! lit "X"
  = Some {| baseline := lit "h1"; compare := lit "h2" |}.
Proof.
  assert (Hc : sample_comp !! lit "X" = Some (sample_file (lit "h2")))
    by (vm_compute; reflexivity).
  destruct (compareJS_classifies sample_base sample_comp (lit "X")
              (sample_file (lit "h2")) Hc) as (_ & H & _).
  apply H. exists (sample_file (lit "h1")).
  split; [vm_compute; reflexivity|]. split; [discriminate | reflexivity].
Defined.

Lemma compareJS_ignores_removed_witness :
  newJS (compareJS sample_base sample_comp) !! lit "A" = None
  /\ hashDifferentJS (compareJS sample_base sample_comp) !! lit "A" = None.
Proof.
  apply (compareJS_ignores_removed sample_base sample_comp (lit "A")).
  - exists (sample_file (lit "h1")). vm_compute. reflexivity.
  - vm_compute. reflexivity.
Defined.

(** * Further properties *)

(** ** compareJS on whole dictionaries *)

Lemma compareJS_empty_iff (baseDict compDict : gmap str JSFile) :
  (newJS (compareJS baseDict compDict) = ∅
   /\ hashDifferentJS (compareJS baseDict compDict) = ∅)
  <-> (forall key comp, compDict !! key = Some comp ->
         exists base, baseDict !! key = Some base
                      /\ js_hash base = js_hash comp).
Proof.
  split.
  - intros [Hn Hd] key comp Hc.
    destruct (compareJS_spec baseDict compDict key) as [H1 H2].
    rewrite Hn, lookup_empty, Hc in H1. rewrite Hd, lookup_empty, Hc in H2.
    destruct (baseDict !! key) as [base|]; [|discriminate].
    exists base. split; [reflexivity|].
    destruct (negb (str_eqb (js_hash base) (js_hash comp))) eqn:E;
      [discriminate|].
    apply negb_false_iff in E. unfold str_eqb in E.
    apply bool_decide_eq_true in E. exact E.
  - intros H. split; apply map_eq; intros key; rewrite lookup_empty;
      destruct (compareJS_spec baseDict compDict key) as [H1 H2].
    + rewrite H1. destruct (compDict !! key) as [comp|] eqn:Hc; [|reflexivity].
      destruct (H _ _ Hc) as (base & -> & _). reflexivity.
    + rewrite H2. destruct (compDict !! key) as [comp|] eqn:Hc; [|reflexivity].
      destruct (H _ _ Hc) as (base & -> & Heq).
      rewrite Heq. unfold str_eqb. rewrite bool_decide_eq_true_2 by reflexivity.
      reflexivity.
Qed.

(** X1: [compareJS] reports nothing, neither a new file nor a changed one,
    exactly when every key of the comparison dictionary is a key of the
    baseline with the same hash; so it reports nothing for a dictionary
    compared with itself, and nothing when files have only been removed. *)
Theorem compareJS_nothing_to_report (baseDict compDict : gmap str JSFile) :
  ((newJS (compareJS baseDict compDict) = ∅
    /\ hashDifferentJS (compareJS baseDict compDict) = ∅)
   <-> (forall key comp, compDict !! key = Some comp ->
          exists base, baseDict !! key = Some base
                       /\ js_hash base = js_hash comp))
  /\ newJS (compareJS baseDict baseDict) = ∅
  /\ hashDifferentJS (compareJS baseDict baseDict) = ∅
  /\ (compDict ⊆ baseDict ->
      newJS (compareJS baseDict compDict) = ∅
      /\ hashDifferentJS (compareJS baseDict compDict) = ∅).
Proof.
  split; [apply compareJS_empty_iff|].
  assert (Hsub : forall c, c ⊆ baseDict ->
            newJS (compareJS baseDict c) = ∅
            /\ hashDifferentJS (compareJS baseDict c) = ∅).
  { intros c Hc. apply compareJS_empty_iff. intros key comp Hk.
    exists comp. split; [|reflexivity].
    exact (lookup_weaken _ _ _ _ Hk Hc). }
  split; [apply Hsub; reflexivity|].
  split; [apply Hsub; reflexivity | apply Hsub].
Qed.

Lemma compareJS_nothing_to_report_witness :
  newJS (compareJS sample_base (delete (lit "B") (delete (lit "X") sample_comp)))
  = ∅
  /\ hashDifferentJS
       (compareJS sample_base (delete (lit "B") (delete (lit "X") sample_comp)))
     = ∅.
Proof.
  apply (proj2 (proj2 (proj2
           (compareJS_nothing_to_report sample_base
              (delete (lit "B") (delete (lit "X") sample_comp)))))).
  apply map_subseteq_spec. intros k v H.
  destruct (decide (k = lit "B")) as [-> | HB];
    [rewrite lookup_delete_eq in H; discriminate|].
  rewrite lookup_delete_ne in H by congruence.
  destruct (decide (k = lit "X")) as [-> | HX];
    [rewrite lookup_delete_eq in H; discriminate|].
  rewrite lookup_delete_ne in H by congruence.
  unfold sample_comp in H. unfold sample_base.
  rewrite lookup_insert_ne in H by congruence.
  rewrite lookup_insert_ne in H by congruence.
  destruct (decide (k = lit "A")) as [-> | HA].
  - rewrite lookup_insert_ne in H by discriminate.
    rewrite lookup_empty in H. discriminate.
  - rewrite lookup_insert_ne by congruence.
    rewrite lookup_insert_ne by congruence. exact H.
Defined.

(** X2: no key is reported both as new and as changed; the keys reported
    are keys of the comparison dictionary; and the value stored for a new
    key is 1. *)
Theorem compareJS_reports_disjoint (baseDict compDict : gmap str JSFile)
    (key : str) :
  ~ (is_Some (newJS (compareJS baseDict compDict) !! key)
     /\ is_Some (hashDifferentJS (compareJS baseDict compDict) !! key))
  /\ (forall v, newJS (compareJS baseDict compDict) !! key = Some v ->
        v = 1 /\ is_Some (compDict !! key))
  /\ (is_Some (hashDifferentJS (compareJS baseDict compDict) !! key) ->
      is_Some (compDict !! key)).
Proof.
  destruct (compareJS_spec baseDict compDict key) as [H1 H2].
  rewrite H1, H2. clear H1 H2.
  destruct (compDict !! key) as [comp|], (baseDict !! key) as [base|];
    (split; [|split]);
    try (intros [[x Hx] [y Hy]]; discriminate);
    try (intros v Hv; discriminate);
    try (intros [x Hx]; discriminate); eauto.
  intros v [= <-]. eauto.
Qed.

(** ** The keys and the records of JSFiles *)

Lemma find_from_none (i : Z) (sub t : str) :
  0 <= i ->
  (find_from i sub t = -1 <-> forall a b, t <> a ++ sub ++ b).
Proof.
  revert i. induction t as [|c t IH]; intros i Hi; simpl.
  - destruct sub as [|s sub]; simpl.
    + split; [lia|]. intros H. exfalso. apply (H [] []). reflexivity.
    + split; [|reflexivity]. intros _ a b H.
      symmetry in H. apply app_eq_nil in H as [_ H]. discriminate.
  - destruct (startswith sub (c :: t)) eqn:E.
    + apply startswith_spec in E as [k Hk]. split; [lia|].
      intros H. exfalso. apply (H [] k). exact Hk.
    + rewrite (IH (i + 1)) by lia. split.
      * intros H a b Hab. destruct a as [|a0 a].
        -- assert (startswith sub (c :: t) = true)
             by (apply startswith_spec; exists b; exact Hab).
           congruence.
        -- injection Hab as _ Hab. exact (H a b Hab).
      * intros H a b Hab. apply (H (c :: a) b). rewrite Hab. reflexivity.
Qed.

Lemma contains_spec (sub t : str) :
  contains sub t = true <-> exists a b, t = a ++ sub ++ b.
Proof.
  unfold contains, str_find. rewrite negb_true_iff, Z.eqb_neq.
  rewrite (find_from_none 0 sub t) by lia. split.
  - intros H. destruct (startswith sub t) eqn:E0.
    + apply startswith_spec in E0 as [k ->]. exists [], k. reflexivity.
    + (* decide by running the search *)
      destruct (Z.eq_dec (find_from 0 sub t) (-1)) as [Hf | Hf].
      * exfalso. apply H. apply (find_from_none 0 sub t); [lia | exact Hf].
      * clear H E0. revert Hf. generalize 0 at 1.
        induction t as [|c t IH]; intros i; simpl.
        -- destruct (startswith sub []) eqn:E; [|congruence].
           apply startswith_spec in E as [k Hk]. intros _.
           exists [], k. exact Hk.
        -- destruct (startswith sub (c :: t)) eqn:E.
           ++ apply startswith_spec in E as [k Hk]. intros _.
              exists [], k. exact Hk.
           ++ intros Hf. destruct (IH _ Hf) as (a & b & ->).
              exists (c :: a), b. reflexivity.
  - intros (a & b & ->) H. exact (H a b eq_refl).
Qed.

Lemma is_js_header_spec (h : Header) :
  is_js_header h = true
  <-> lower (h_name h) = lit "content-type"
      /\ exists a b, h_value h = a ++ lit "javascript" ++ b.
Proof.
  unfold is_js_header, str_eqb.
  rewrite andb_true_iff, bool_decide_eq_true, contains_spec. reflexivity.
Qed.

Lemma js_count_spec (e : Entry) :
  js_count e <> 0%nat
  <-> exists h, In h (resp_headers (response e)) /\ is_js_header h = true.
Proof.
  unfold js_count. split.
  - destruct (List.filter is_js_header (resp_headers (response e)))
      as [|h l] eqn:E; [simpl; congruence|]. intros _.
    exists h. apply List.filter_In. rewrite E. left. reflexivity.
  - intros (h & Hh) H. apply List.filter_In in Hh.
    destruct (List.filter is_js_header (resp_headers (response e)));
      [destruct Hh | discriminate].
Qed.

Lemma recorded_lookup (d : str) (e : Entry) (files : gmap str JSFile)
    (k : str) (f : JSFile) :
  recorded d e files !! k = Some f <->
  (js_count e <> 0%nat /\ canonical_url d (url (request e)) = k
   /\ f = record_of e)
  \/ ((js_count e = 0%nat \/ canonical_url d (url (request e)) <> k)
      /\ files !! k = Some f).
Proof.
  unfold recorded, record_of. destruct (js_count e) as [|n].
  - split; [intros H; right; auto | intros [[H _] | [_ H]]; [lia | exact H]].
  - destruct (decide (canonical_url d (url (request e)) = k)) as [<- | Hne].
    + rewrite lookup_insert_eq. split.
      * intros [= <-]. left. auto.
      * intros [(_ & _ & ->) | [[H | H] _]]; [reflexivity | lia | congruence].
    + rewrite lookup_insert_ne by exact Hne. split.
      * intros H. right. auto.
      * intros [(_ & H & _) | [_ H]]; [congruence | exact H].
Qed.

(** Every record found after the loop was written for some entry. *)
Lemma fold_recorded_lookup (d : str) (es : list Entry)
    (files : gmap str JSFile) (k : str) (f : JSFile) :
  fold_left (fun files e => recorded d e files) es files !! k = Some f ->
  files !! k = Some f
  \/ exists e, In e es /\ js_count e <> 0%nat
               /\ canonical_url d (url (request e)) = k /\ f = record_of e.
Proof.
  revert files. induction es as [|e es IH]; intros files; simpl; [auto|].
  intros H. destruct (IH _ H) as [H' | (e' & He' & Hrest)].
  - apply recorded_lookup in H' as [(H1 & H2 & H3) | [_ H']]; [|auto].
    right. exists e. auto.
  - right. exists e'. auto.
Qed.

Lemma fold_recorded_is_Some (d : str) (es : list Entry)
    (files : gmap str JSFile) (k : str) :
  is_Some (fold_left (fun files e => recorded d e files) es files !! k)
  <-> is_Some (files !! k)
      \/ exists e, In e es /\ js_count e <> 0%nat
                   /\ canonical_url d (url (request e)) = k.
Proof.
  revert files. induction es as [|e es IH]; intros files; simpl.
  - split; [auto | intros [H | (e & [] & _)]; exact H].
  - rewrite IH. split.
    + intros [[f Hf] | (e' & He' & Hrest)].
      * apply recorded_lookup in Hf as [(H1 & H2 & _) | [_ Hf]].
        -- right. exists e. auto.
        -- left. eauto.
      * right. exists e'. auto.
    + intros [[f Hf] | (e' & [<- | He'] & Hk & Hc)].
      * left. destruct (decide (js_count e = 0%nat)) as [H0 | H0].
        -- exists f. apply recorded_lookup. right. auto.
        -- destruct (decide (canonical_url d (url (request e)) = k))
             as [Hk | Hk].
           ++ exists (record_of e). apply recorded_lookup. left. auto.
           ++ exists f. apply recorded_lookup. right. auto.
      * left. exists (record_of e). apply recorded_lookup. left. auto.
      * right. exists e'. auto.
Qed.

Lemma getJS_files (outerDict : HarDoc) (debug : bool) (run : Run) :
  getJS outerDict debug = Some run ->
  JSFiles (returned run)
  = fold_left
      (fun files e =>
         recorded (page_domain_of (fd_title (fileDetails (returned run))))
           e files)
      (entries (log outerDict)) ∅.
Proof.
  intros Hrun. destruct (getJS_inv _ _ _ Hrun) as (page & others & Hp).
  destruct (getJS_returns outerDict debug page others Hp)
    as (run' & Hrun' & Hfiles & Hfd & _).
  rewrite Hrun in Hrun'. injection Hrun' as <-.
  rewrite Hfd. exact Hfiles.
Qed.

(** X3: the keys of [JSFiles] are the canonical URLs of the entries that have
    a response header whose name is [content-type] in any letter case and
    whose value holds [javascript]; the other entries leave no key. *)
Theorem getJS_keys (outerDict : HarDoc) (debug : bool) (run : Run)
    (key : str) :
  getJS outerDict debug = Some run ->
  (is_Some (JSFiles (returned run) !! key)
   <-> exists entry header before after,
         In entry (entries (log outerDict))
         /\ In header (resp_headers (response entry))
         /\ lower (h_name header) = lit "content-type"
         /\ h_value header = before ++ lit "javascript" ++ after
         /\ canonical_url
              (page_domain_of (fd_title (fileDetails (returned run))))
              (url (request entry)) = key).
Proof.
  intros Hrun. rewrite (getJS_files _ _ _ Hrun), fold_recorded_is_Some.
  split.
  - intros [[f Hf] | (e & He & Hk & Hc)];
      [rewrite lookup_empty in Hf; discriminate|].
    apply js_count_spec in Hk as (h & Hh & Hjs).
    apply is_js_header_spec in Hjs as (Hn & a & b & Hv).
    exists e, h, a, b. auto.
  - intros (e & h & a & b & He & Hh & Hn & Hv & Hc). right.
    exists e. split; [exact He|]. split; [|exact Hc].
    apply js_count_spec. exists h. split; [exact Hh|].
    apply is_js_header_spec. eauto.
Qed.

Lemma getJS_keys_witness :
  exists run,
    getJS doc_two_headers false = Some run
    /\ is_Some (JSFiles (returned run) !! lit "https://example.com/app.js").
Proof.
  eexists. split; [reflexivity|].
  apply (proj2 (getJS_keys doc_two_headers false _
                  (lit "https://example.com/app.js") eq_refl)).
  exists (sample_entry (lit "https://example.com/app.js")
            [js_header; js_header] (Some (lit "a"))),
    js_header, (lit "application/"), [].
  split; [left; reflexivity|]. split; [left; reflexivity|].
  split; [reflexivity|]. split; [reflexivity|]. vm_compute. reflexivity.
Defined.

(** X4: the last entry wins.  The record found under a key is the one
    written for the last JavaScript entry with that key, whatever entries
    came before: its size, the digest of its text (or of the placeholder)
    fed once for each JavaScript content type of its response, the text
    ["redacted"], and its referer. *)
Theorem getJS_last_entry_wins (outerDict : HarDoc) (debug : bool)
    (page : Page) (others : list Page) (before after : list Entry)
    (entry : Entry) :
  pages (log outerDict) = page :: others ->
  entries (log outerDict) = before ++ entry :: after ->
  js_count entry <> 0%nat ->
  (forall e, In e after ->
     js_count e = 0%nat
     \/ canonical_url (page_domain_of (title page)) (url (request e))
        <> canonical_url (page_domain_of (title page)) (url (request entry))) ->
  exists run,
    getJS outerDict debug = Some run
    /\ JSFiles (returned run)
         !! canonical_url (page_domain_of (title page)) (url (request entry))
       = Some {| js_size := c_size (content (response entry));
                 js_hash :=
                   md5_hexdigest
                     (concat
                        (repeat
                           (encode_utf8
                              (default (lit "ADDED TEXT TO ANOMOLY")
                                 (c_text (content (response entry)))))
                           (js_count entry)));
                 js_text := lit "redacted";
                 js_referer := referer_of (req_headers (request entry)) |}.
Proof.
  intros Hp He Hk Hafter.
  destruct (getJS_returns outerDict debug page others Hp)
    as (run & Hrun & Hfiles & _).
  exists run. split; [exact Hrun|].
  rewrite Hfiles, He, fold_left_app. simpl.
  rewrite recorded_fold_other by exact Hafter.
  apply recorded_self, Hk.
Qed.

Lemma getJS_last_entry_wins_witness :
  exists run,
    getJS (doc_two (lit "https://example.com/v1/a.js")
             (lit "https://example.com/v2/a.js")) false = Some run
    /\ JSFiles (returned run) !! lit "https://example.com/v9999999999/a.js"
       = Some {| js_size := 1;
                 js_hash := fingerprint (lit "b");
                 js_text := lit "redacted";
                 js_referer := [] |}.
Proof.
  apply (getJS_last_entry_wins
           (doc_two (lit "https://example.com/v1/a.js")
              (lit "https://example.com/v2/a.js")) false
           {| title := lit "https://example.com/";
              startedDateTime := lit "2020-05-01T10:00:00Z" |} []
           [sample_entry (lit "https://example.com/v1/a.js") [js_header]
              (Some (lit "a"))]
           []
           (sample_entry (lit "https://example.com/v2/a.js") [js_header]
              (Some (lit "b")))).
  - reflexivity.
  - reflexivity.
  - vm_compute. discriminate.
  - intros e [].
Defined.

(** ** Invariants of what getJS returns *)

Lemma canonical_url_no_qstring (d u : str) :
  has_qstring (canonical_url d u) = false.
Proof.
  rewrite canonical_url_domain. destruct (startswith d (redact u)).
  - rewrite version_paths_has_qstring. apply redact_no_qstring.
  - apply redact_no_qstring.
Qed.

Lemma canonical_url_twice (d u : str) :
  canonical_url d (canonical_url d u) = canonical_url d u.
Proof.
  rewrite (canonical_url_domain d (canonical_url d u)).
  rewrite (redact_fixed _ (canonical_url_no_qstring d u)).
  rewrite canonical_url_domain.
  destruct (startswith d (redact u)) eqn:E.
  - destruct (startswith d (version_paths (redact u)));
      [apply version_paths_idempotent | reflexivity].
  - rewrite E. reflexivity.
Qed.

(** X5: every key of [JSFiles] is in normal form: the normaliser, run with
    the page domain of the document, maps the key to itself, and so does the
    redaction of the query string. *)
Theorem getJS_keys_normalised (outerDict : HarDoc) (debug : bool) (run : Run)
    (key : str) :
  getJS outerDict debug = Some run ->
  is_Some (JSFiles (returned run) !! key) ->
  canonical_url (page_domain_of (fd_title (fileDetails (returned run)))) key
  = key
  /\ redact key = key.
Proof.
  intros Hrun Hk. rewrite (getJS_files _ _ _ Hrun) in Hk.
  apply fold_recorded_is_Some in Hk as [[f Hf] | (e & _ & _ & <-)];
    [rewrite lookup_empty in Hf; discriminate|].
  split; [apply canonical_url_twice|].
  apply redact_fixed, canonical_url_no_qstring.
Qed.

Lemma getJS_keys_normalised_witness :
  exists run,
    getJS (doc_one (lit "https://example.com/v7/a.js?x=1")) false = Some run
    /\ canonical_url
         (page_domain_of (fd_title (fileDetails (returned run))))
         (lit "https://example.com/v9999999999/a.js[qstring redacted]")
       = lit "https://example.com/v9999999999/a.js[qstring redacted]"
    /\ redact (lit "https://example.com/v9999999999/a.js[qstring redacted]")
       = lit "https://example.com/v9999999999/a.js[qstring redacted]".
Proof.
  eexists. split; [reflexivity|].
  apply (getJS_keys_normalised
           (doc_one (lit "https://example.com/v7/a.js?x=1")) false _
           (lit "https://example.com/v9999999999/a.js[qstring redacted]")
           eq_refl).
  vm_compute. eexists. reflexivity.
Defined.

Lemma digest_length (m : bytes) : length (MD5.digest m) = 16%nat.
Proof.
  unfold MD5.digest, MD5.digest_N. rewrite length_map.
  destruct (fold_left MD5.compress _ MD5.init) as [[[a b] c] d].
  reflexivity.
Qed.

Lemma hex_length (bs : bytes) : length (MD5.hex bs) = (2 * length bs)%nat.
Proof.
  induction bs as [|b bs IH]; [reflexivity|].
  unfold MD5.hex in *. simpl. rewrite IH. lia.
Qed.

Lemma hex_byte_digits (b : byte) :
  forallb is_hex_digit (MD5.hex_byte b) = true.
Proof. destruct b; vm_compute; reflexivity. Qed.

Lemma hex_digits (bs : bytes) : forallb is_hex_digit (MD5.hex bs) = true.
Proof.
  induction bs as [|b bs IH]; [reflexivity|].
  unfold MD5.hex in *.
  change (flat_map MD5.hex_byte (b :: bs))
    with (MD5.hex_byte b ++ flat_map MD5.hex_byte bs).
  rewrite forallb_app, hex_byte_digits, IH. reflexivity.
Qed.

Lemma referer_fold_no_qstring (hs : list Header) (acc : str) :
  has_qstring acc = false ->
  has_qstring
    (fold_left
       (fun referer request_header =>
          if str_eqb (lower (h_name request_header)) (lit "referer")
          then redact (h_value request_header)
          else referer) hs acc) = false.
Proof.
  revert acc. induction hs as [|h hs IH]; intros acc H; [exact H|].
  cbn [fold_left]. apply IH.
  destruct (str_eqb (lower (h_name h)) (lit "referer"));
    [apply redact_no_qstring | exact H].
Qed.

(** X6: every record of [JSFiles] has the text ["redacted"], never the body;
    its hash has 32 characters, each a digit or a letter from [a] to [f];
    and its referer holds no query string that the redaction would still
    replace. *)
Theorem getJS_records_well_formed (outerDict : HarDoc) (debug : bool)
    (run : Run) (key : str) (file : JSFile) :
  getJS outerDict debug = Some run ->
  JSFiles (returned run) !! key = Some file ->
  js_text file = lit "redacted"
  /\ length (js_hash file) = 32%nat
  /\ forallb is_hex_digit (js_hash file) = true
  /\ redact (js_referer file) = js_referer file.
Proof.
  intros Hrun Hf. rewrite (getJS_files _ _ _ Hrun) in Hf.
  apply fold_recorded_lookup in Hf as [Hf | (e & _ & _ & _ & ->)];
    [rewrite lookup_empty in Hf; discriminate|].
  unfold record_of, md5_hexdigest. simpl.
  rewrite hex_length, digest_length, hex_digits.
  repeat split. apply redact_fixed.
  unfold referer_of. apply referer_fold_no_qstring. reflexivity.
Qed.

Lemma getJS_records_well_formed_witness :
  exists run file,
    getJS doc_no_text false = Some run
    /\ JSFiles (returned run) !! lit "https://example.com/app.js" = Some file
    /\ js_text file = lit "redacted"
    /\ length (js_hash file) = 32%nat
    /\ forallb is_hex_digit (js_hash file) = true
    /\ redact (js_referer file) = js_referer file.
Proof.
  eexists. eexists. split; [reflexivity|].
  split; [vm_compute; reflexivity|].
  apply (getJS_records_well_formed doc_no_text false _
           (lit "https://example.com/app.js") _ eq_refl).
  vm_compute. reflexivity.
Defined.

(** ** The referer *)

Lemma referer_fold_none (hs : list Header) (acc : str) :
  forallb (fun h => negb (is_referer h)) hs = true ->
  fold_left
    (fun referer request_header =>
       if str_eqb (lower (h_name request_header)) (lit "referer")
       then redact (h_value request_header)
       else referer) hs acc = acc.
Proof.
  revert acc. induction hs as [|h hs IH]; intros acc; [reflexivity|].
  cbn [fold_left forallb].
  rewrite andb_true_iff, negb_true_iff. unfold is_referer at 1.
  intros [-> H]. apply IH, H.
Qed.

(** X7: the referer recorded with a file is the value of the last request
    header whose name is [referer] in any letter case, with its query
    string redacted and nothing else changed; without such a header it is
    the empty string. *)
Theorem referer_of_last (request_headers : list Header) :
  (forallb (fun h => negb (is_referer h)) request_headers = true ->
   referer_of request_headers = [])
  /\ (forall before header after,
        request_headers = before ++ header :: after ->
        lower (h_name header) = lit "referer" ->
        forallb (fun h => negb (is_referer h)) after = true ->
        referer_of request_headers = redact (h_value header)).
Proof.
  split.
  - apply referer_fold_none.
  - intros before header after -> Hn Hafter. unfold referer_of.
    rewrite fold_left_app. cbn [fold_left].
    replace (str_eqb (lower (h_name header)) (lit "referer")) with true
      by (symmetry; apply bool_decide_eq_true_2, Hn).
    apply referer_fold_none, Hafter.
Qed.

Lemma referer_of_last_witness :
  referer_of
    [ {| h_name := lit "Referer"; h_value := lit "https://a.example/v1/?q=1" |};
      {| h_name := lit "REFERER"; h_value := lit "https://b.example/v2/?q=2" |};
      {| h_name := lit "Accept"; h_value := lit "*/*" |} ]
  = lit "https://b.example/v2/[qstring redacted]".
Proof.
  apply (proj2 (referer_of_last _)
           [ {| h_name := lit "Referer";
                h_value := lit "https://a.example/v1/?q=1" |} ]
           {| h_name := lit "REFERER";
              h_value := lit "https://b.example/v2/?q=2" |}
           [ {| h_name := lit "Accept"; h_value := lit "*/*" |} ]).
  - reflexivity.
  - reflexivity.
  - reflexivity.
Defined.

(** ** Running again *)

Lemma filled_fields (e : Entry) :
  request (filled e) = request e
  /\ resp_headers (response (filled e)) = resp_headers (response e)
  /\ c_size (content (response (filled e))) = c_size (content (response e))
  /\ default placeholder (c_text (content (response (filled e))))
     = default placeholder (c_text (content (response e)))
  /\ (existsb is_js_header (resp_headers (response e)) = true ->
      c_text (content (response (filled e))) <> None).
Proof.
  unfold filled.
  destruct (existsb is_js_header (resp_headers (response e))) eqn:E.
  - destruct (c_text (content (response e))) eqn:Et; simpl;
      rewrite ?Et; repeat split; congruence.
  - repeat split. discriminate.
Qed.

Lemma recorded_filled (d : str) (e : Entry) (files : gmap str JSFile) :
  recorded d (filled e) files = recorded d e files.
Proof.
  destruct (filled_fields e) as (H1 & H2 & H3 & H4 & _).
  unfold recorded, hashed_bytes, js_count. rewrite H1, H2, H3, H4.
  reflexivity.
Qed.

Lemma fold_recorded_filled (d : str) (es : list Entry)
    (files : gmap str JSFile) :
  fold_left (fun files e => recorded d e files) (map filled es) files
  = fold_left (fun files e => recorded d e files) es files.
Proof.
  revert files. induction es as [|e es IH]; intros files; [reflexivity|].
  simpl. rewrite recorded_filled. apply IH.
Qed.

Lemma filled_filled (e : Entry) : filled (filled e) = filled e.
Proof.
  apply filled_with_text. destruct (filled_fields e) as (_ & H2 & _ & _ & H5).
  rewrite H2. exact H5.
Qed.

Lemma anomaly_lines_filled (d : str) (e : Entry) :
  anomaly_lines d (filled e) = [].
Proof.
  destruct (filled_fields e) as (_ & H2 & _ & _ & H5).
  unfold anomaly_lines. rewrite H2.
  destruct (existsb is_js_header (resp_headers (response e)));
    [|reflexivity].
  destruct (c_text (content (response (filled e)))); [reflexivity|].
  exfalso. apply H5; reflexivity.
Qed.

Lemma anomaly_lines_all_filled (d : str) (es : list Entry) :
  flat_map (anomaly_lines d) (map filled es) = [].
Proof.
  induction es as [|e es IH]; [reflexivity|].
  simpl. rewrite anomaly_lines_filled. exact IH.
Qed.

(** X11: a second call of [getJS], on the document as the first call left
    it, returns the same files and details and leaves the document as it
    is; with [debug] off it prints no line about a missing text. *)
Theorem getJS_second_call (outerDict : HarDoc) (debug debug' : bool)
    (run : Run) :
  getJS outerDict debug = Some run ->
  exists run',
    getJS (document run) debug' = Some run'
    /\ returned run' = returned run
    /\ document run' = document run
    /\ (debug' = false ->
        printed run'
        = match find_domain (fd_title (fileDetails (returned run))) with
          | Some d => [lit "Page domain is " ++ d]
          | None => []
          end).
Proof.
  intros Hrun. destruct (getJS_inv _ _ _ Hrun) as (page & others & Hp).
  destruct (getJS_returns outerDict debug page others Hp)
    as (run0 & Hrun0 & Hfiles & Hfd & Hdoc & _).
  rewrite Hrun in Hrun0. injection Hrun0 as <-.
  assert (Hp' : pages (log (document run)) = page :: others)
    by (rewrite Hdoc; exact Hp).
  destruct (getJS_returns (document run) debug' page others Hp')
    as (run' & Hrun' & Hfiles' & Hfd' & Hdoc' & Hout').
  exists run'. split; [exact Hrun'|].
  assert (He : entries (log (document run))
               = map filled (entries (log outerDict)))
    by (rewrite Hdoc; reflexivity).
  split; [|split].
  - destruct (returned run') as [f' d'], (returned run) as [f0 d0].
    simpl in *. rewrite Hfiles', Hfd', Hfiles, Hfd, He, fold_recorded_filled.
    reflexivity.
  - rewrite Hdoc', Hp', He, Hdoc, Hp. do 2 f_equal.
    rewrite map_map. apply map_ext. intros e. apply filled_filled.
  - intros Hd. rewrite (Hout' Hd), He, Hfd, anomaly_lines_all_filled.
    apply app_nil_r.
Qed.

Lemma getJS_second_call_witness :
  exists run run',
    getJS doc_no_text false = Some run
    /\ getJS (document run) false = Some run'
    /\ returned run' = returned run
    /\ document run' = document run
    /\ printed run' = [lit "Page domain is https://example.com"].
Proof.
  eexists.
  destruct (getJS_second_call doc_no_text false false _ eq_refl)
    as (run' & H1 & H2 & H3 & H4).
  exists run'. split; [reflexivity|]. split; [exact H1|].
  split; [exact H2|]. split; [exact H3|]. exact (H4 eq_refl).
Defined.

(** ** What the redaction replaces *)

Lemma redact_line_end (r : str) :
  r = [] \/ r = ["010"%char] -> redact r = r.
Proof. intros [-> | ->]; reflexivity. Qed.

(** X8: the redaction changes a URL in one way only.  Either it leaves the
    URL as it is, or the URL ends with a question mark followed by one or
    more characters other than the newline (and then, at most, one final
    newline): that question mark and those characters are replaced by the
    marker, and everything before them is kept. *)
Theorem redact_replaces_tail (url : str) :
  redact url = url
  \/ exists p q e,
       url = p ++ "?"%char :: q ++ e
       /\ q <> [] /\ no_newline q = true
       /\ (e = [] \/ e = ["010"%char])
       /\ redact url = p ++ lit "[qstring redacted]" ++ e.
Proof.
  apply (re_sub_ind match_qstring marker match_qstring_shrinks
           (fun t t' =>
              t' = t
              \/ exists p q e,
                   t = p ++ "?"%char :: q ++ e
                   /\ q <> [] /\ no_newline q = true
                   /\ (e = [] \/ e = ["010"%char])
                   /\ t' = p ++ lit "[qstring redacted]" ++ e)).
  - left. reflexivity.
  - intros t r E _. right.
    destruct t as [|q0 [|c x]]; simpl in E; try discriminate.
    destruct (is_qmark q0) eqn:Eq; simpl in E; [|discriminate].
    destruct (is_newline c) eqn:Ec; simpl in E; [discriminate|].
    apply chr_eqb_eq in Eq. subst q0.
    destruct (match_to_end_inv _ _ E) as (s & -> & Hs & Hr).
    exists [], (c :: s), r. fold (redact r). rewrite (redact_line_end r Hr).
    split; [reflexivity|]. split; [discriminate|].
    split; [|split; [exact Hr | reflexivity]].
    simpl. rewrite Ec, Hs. reflexivity.
  - intros c t _ [-> | (p & q & e & -> & Hq & Hnl & He & ->)].
    + left. reflexivity.
    + right. exists (c :: p), q, e. auto.
Qed.

(** ** Version segments with other digits *)

Lemma join_slash_app (l1 l2 : list str) :
  l1 <> [] -> l2 <> [] ->
  join_slash (l1 ++ l2) = join_slash l1 ++ "/"%char :: join_slash l2.
Proof.
  intros H1 H2. induction l1 as [|s l1 IH]; [congruence|].
  destruct l1 as [|s' l1].
  - simpl app. rewrite join_slash_cons by exact H2. reflexivity.
  - change ((s :: s' :: l1) ++ l2) with (s :: ((s' :: l1) ++ l2)).
    rewrite !join_slash_cons by discriminate.
    rewrite IH by discriminate. rewrite <- app_assoc. reflexivity.
Qed.

Section ScanAround.
Variable p : str -> bool.
Variable r : str.

(** The segments before one that is not the pattern, and the segments
    after it, are scanned apart. *)
Lemma scan_segments_app (b : bool) (l1 l2 : list str) :
  l1 <> [] -> p (List.last l1 []) = false -> l2 <> [] ->
  scan_segments p r b (l1 ++ l2)
  = scan_segments p r b l1 ++ scan_segments p r true l2.
Proof.
  intros H1 Hlast H2. revert b.
  induction l1 as [|x l1 IH]; intros b; [congruence|].
  destruct l1 as [|y l1].
  - simpl in Hlast. destruct l2 as [|z l2]; [congruence|].
    simpl. rewrite Hlast, !andb_false_r. reflexivity.
  - change (List.last (x :: y :: l1) []) with (List.last (y :: l1) [])
      in Hlast.
    change ((x :: y :: l1) ++ l2) with (x :: ((y :: l1) ++ l2)).
    cbn [scan_segments app].
    destruct (b && p x && true); cbn [app]; f_equal;
      apply IH; (discriminate || exact Hlast).
Qed.

Lemma scan_segments_replace (b : bool) (l1 l2 : list str) (s : str) :
  l1 <> [] -> p (List.last l1 []) = false -> l2 <> [] -> p s = true ->
  scan_segments p r b (l1 ++ s :: l2)
  = scan_segments p r b l1 ++ r :: scan_segments p r false l2.
Proof.
  intros H1 Hlast H2 Hs.
  rewrite scan_segments_app by (assumption || discriminate).
  f_equal. destruct l2 as [|z l2]; [congruence|].
  cbn [scan_segments]. rewrite Hs. reflexivity.
Qed.

(** Around a segment that is not the pattern the scan is the same,
    whatever the segment. *)
Lemma scan_segments_around (b : bool) (l1 l2 : list str) :
  exists Y,
    Forall2 (fun y x => y = x \/ y = r) Y l1
    /\ forall s, p s = false ->
         scan_segments p r b (l1 ++ s :: l2)
         = Y ++ s :: scan_segments p r true l2.
Proof.
  revert b. induction l1 as [|x l1 IH]; intros b.
  - exists []. split; [constructor|]. intros s Hs.
    cbn [app scan_segments]. rewrite Hs, andb_false_r. reflexivity.
  - destruct (b && p x) eqn:E.
    + destruct (IH false) as (Y & HY & Hscan). exists (r :: Y).
      split; [constructor; auto|]. intros s Hs.
      cbn [app scan_segments]. rewrite E.
      destruct (l1 ++ s :: l2) eqn:El;
        [destruct l1; discriminate|].
      rewrite <- El. cbn [andb app]. f_equal. apply Hscan, Hs.
    + destruct (IH true) as (Y & HY & Hscan). exists (x :: Y).
      split; [constructor; auto|]. intros s Hs.
      cbn [app scan_segments]. rewrite E. cbn [andb app].
      f_equal. apply Hscan, Hs.
Qed.
End ScanAround.

Lemma last_Forall2 (r : str) (Y l : list str) :
  Forall2 (fun y x => y = x \/ y = r) Y l ->
  Y = [] /\ l = []
  \/ (Y <> [] /\ l <> []
      /\ (List.last Y [] = List.last l [] \/ List.last Y [] = r)).
Proof.
  induction 1 as [|y x Y l Hyx HF IH]; [left; auto|]. right.
  split; [discriminate|]. split; [discriminate|].
  destruct IH as [[-> ->] | (HY & Hl & IH)].
  - simpl. exact Hyx.
  - destruct Y as [|y' Y]; [congruence|]. destruct l as [|x' l]; [congruence|].
    exact IH.
Qed.

Lemma word_digits_app (w ds : str) :
  ds <> [] -> forallb is_digit ds = true -> word_digits w (w ++ ds) = true.
Proof.
  intros Hne Hd. unfold word_digits. rewrite strip_prefix_of_app.
  destruct ds as [|d ds]; [congruence | exact Hd].
Qed.

Lemma text_of_segments (a seg b : str) :
  join_slash (split_slash a ++ seg :: split_slash b)
  = a ++ "/"%char :: seg ++ "/"%char :: b.
Proof.
  rewrite join_slash_app
    by (apply split_slash_nonempty || discriminate).
  rewrite join_slash_cons by apply split_slash_nonempty.
  rewrite !join_split_slash. reflexivity.
Qed.

Lemma segments_no_slash (a seg b : str) :
  no_slash seg = true ->
  Forall (fun s => no_slash s = true)
    (split_slash a ++ seg :: split_slash b).
Proof.
  intros H. apply Forall_app. split; [apply split_slash_no_slash|].
  constructor; [exact H | apply split_slash_no_slash].
Qed.

Lemma word_segment_no_slash (w ds : str) :
  no_slash w = true -> forallb is_digit ds = true ->
  no_slash (w ++ ds) = true.
Proof.
  intros Hw Hd. rewrite no_slash_app, Hw, (digits_no_slash _ Hd).
  reflexivity.
Qed.

Lemma version_segment_ignored (a b ds1 ds2 : str) :
  ds1 <> [] -> forallb is_digit ds1 = true ->
  ds2 <> [] -> forallb is_digit ds2 = true ->
  word_digits (lit "version") (last_segment a) = false ->
  version_paths (a ++ "/"%char :: (lit "version" ++ ds1) ++ "/"%char :: b)
  = version_paths (a ++ "/"%char :: (lit "version" ++ ds2) ++ "/"%char :: b).
Proof.
  intros N1 D1 N2 D2 Hlast.
  rewrite <- !text_of_segments.
  rewrite !version_paths_join
    by (apply segments_no_slash, word_segment_no_slash;
        [reflexivity | assumption]).
  rewrite !(scan_segments_replace _ _ false (split_slash a))
    by (try apply split_slash_nonempty; try exact Hlast;
        apply word_digits_app; assumption).
  reflexivity.
Qed.

Lemma v_segment_ignored (a b ds1 ds2 : str) :
  ds1 <> [] -> forallb is_digit ds1 = true ->
  ds2 <> [] -> forallb is_digit ds2 = true ->
  word_digits (lit "v") (last_segment a) = false ->
  version_paths (a ++ "/"%char :: (lit "v" ++ ds1) ++ "/"%char :: b)
  = version_paths (a ++ "/"%char :: (lit "v" ++ ds2) ++ "/"%char :: b).
Proof.
  intros N1 D1 N2 D2 Hlast.
  rewrite <- !text_of_segments.
  rewrite !version_paths_join
    by (apply segments_no_slash, word_segment_no_slash;
        [reflexivity | assumption]).
  destruct (scan_segments_around (word_digits (lit "version"))
              (lit "version9999999999") false (split_slash a)
              (split_slash b)) as (Y & HY & Hscan).
  rewrite !Hscan
    by (apply word_digits_exclusive, word_digits_app; assumption).
  destruct (last_Forall2 _ _ _ HY) as [[_ Hnil] | (HYne & _ & HYlast)];
    [exfalso; exact (split_slash_nonempty a Hnil)|].
  assert (HlastY : word_digits (lit "v") (List.last Y []) = false).
  { destruct HYlast as [-> | ->]; [exact Hlast | reflexivity]. }
  rewrite !(scan_segments_replace _ _ false Y)
    by (try assumption;
        try (apply scan_segments_nonempty, split_slash_nonempty);
        apply word_digits_app; assumption).
  reflexivity.
Qed.

(** X9: the digits of a version segment do not count.  Two URLs that differ
    only in the digits of one segment [/v<digits>/], or of one segment
    [/version<digits>/], are rewritten to the same text by the internal
    branch, when the segment before that one is not itself of the same
    form (of two such segments in a row only the first is rewritten). *)
Theorem version_digits_ignored (a b ds1 ds2 : str) :
  ds1 <> [] -> forallb is_digit ds1 = true ->
  ds2 <> [] -> forallb is_digit ds2 = true ->
  (word_digits (lit "v") (last_segment a) = false ->
   version_paths (a ++ lit "/v" ++ ds1 ++ "/"%char :: b)
   = version_paths (a ++ lit "/v" ++ ds2 ++ "/"%char :: b))
  /\ (word_digits (lit "version") (last_segment a) = false ->
      version_paths (a ++ lit "/version" ++ ds1 ++ "/"%char :: b)
      = version_paths (a ++ lit "/version" ++ ds2 ++ "/"%char :: b)).
Proof.
  intros N1 D1 N2 D2. split; intros Hlast.
  - exact (v_segment_ignored a b ds1 ds2 N1 D1 N2 D2 Hlast).
  - exact (version_segment_ignored a b ds1 ds2 N1 D1 N2 D2 Hlast).
Qed.

Lemma version_digits_ignored_witness :
  version_paths (lit "https://cdn.example.com/static" ++ lit "/v" ++ lit "12"
                   ++ "/"%char :: lit "app.js")
  = version_paths (lit "https://cdn.example.com/static" ++ lit "/v"
                     ++ lit "345" ++ "/"%char :: lit "app.js").
Proof.
  apply (proj1 (version_digits_ignored (lit "https://cdn.example.com/static")
                  (lit "app.js") (lit "12") (lit "345")
                  ltac:(discriminate) eq_refl ltac:(discriminate) eq_refl)).
  reflexivity.
Defined.

(** ** The number of files found *)

Lemma recorded_size (d : str) (e : Entry) (files : gmap str JSFile) :
  (size (recorded d e files)
   <= size files
      + (if existsb is_js_header (resp_headers (response e)) then 1 else 0))%nat.
Proof.
  unfold recorded. rewrite existsb_js_count. fold (js_count e).
  destruct (js_count e); simpl; [lia|].
  rewrite map_size_insert. destruct (files !! _); simpl; lia.
Qed.

Lemma fold_recorded_size (d : str) (es : list Entry)
    (files : gmap str JSFile) :
  (size (fold_left (fun files e => recorded d e files) es files)
   <= size files + length (js_entries es))%nat.
Proof.
  revert files. induction es as [|e es IH]; intros files; simpl; [lia|].
  specialize (IH (recorded d e files)).
  pose proof (recorded_size d e files) as H.
  unfold js_entries in *. simpl.
  destruct (existsb is_js_header (resp_headers (response e))); simpl; lia.
Qed.

(** X13: [JSFiles] has at most as many files as the document has entries
    with a JavaScript content type, and it has none when there is no such
    entry; entries with the same key count once. *)
Theorem getJS_files_count (outerDict : HarDoc) (debug : bool) (run : Run) :
  getJS outerDict debug = Some run ->
  (size (JSFiles (returned run))
   <= length (js_entries (entries (log outerDict))))%nat
  /\ (js_entries (entries (log outerDict)) = [] ->
      JSFiles (returned run) = ∅).
Proof.
  intros Hrun. rewrite (getJS_files _ _ _ Hrun).
  pose proof (fold_recorded_size
                (page_domain_of (fd_title (fileDetails (returned run))))
                (entries (log outerDict)) ∅) as H.
  rewrite map_size_empty in H. split; [exact H|].
  intros Hnil. rewrite Hnil in H. simpl in H.
  apply map_size_empty_iff. lia.
Qed.

Lemma getJS_files_count_witness :
  exists run,
    getJS (doc_two (lit "https://example.com/v1/a.js")
             (lit "https://example.com/v2/a.js")) false = Some run
    /\ (size (JSFiles (returned run)) <= 2)%nat.
Proof.
  eexists. split; [reflexivity|].
  exact (proj1 (getJS_files_count
                  (doc_two (lit "https://example.com/v1/a.js")
                     (lit "https://example.com/v2/a.js")) false _ eq_refl)).
Defined.
